(** * conftastic: a verified model of [src/conftastic/conf.py]

    The development embeds the [Config] store and the [Loader] of
    conftastic in Rocq.  Python dictionaries are finite maps ([gmap]) with
    string keys, exceptions are an explicit error type threaded through a
    small error monad, and the collaborators that live outside the
    repository (the filesystem and the five format parsers) are the
    variables of a section.

    Strings are modelled on ASCII text and paths follow the POSIX flavour
    of [os.path]. *)

From Stdlib Require Import ZArith Ascii String List Lia Bool.
From stdpp Require Import base option list gmap strings fin_maps.

Local Open Scope Z_scope.

(** ** Exceptions and the error monad *)

Module Py.

(** The exceptions the modelled code can raise.  The first two are the
    classes of [conf.py]; the others are built-in exceptions, or stand
    for whatever a format parser raises on malformed input. *)
Inductive exn : Type :=
  | UnknownFileType (msg : string)
  | NoConfigFileFound (msg : string)
  | IOError (msg : string)
  | FileNotFoundError (path : string)
  | IsADirectoryError (path : string)
  | ValueError
  | IndexError
  | KeyError
  | TypeError
  | AttributeError (name : string)
  | ParserError (msg : string).

Inductive result (A : Type) : Type :=
  | Ok (a : A)
  | Raise (e : exn).
Global Arguments Ok {A} a.
Global Arguments Raise {A} e.

Global Instance result_ret : MRet result := fun A a => Ok a.
Global Instance result_bind : MBind result := fun A B f m =>
  match m with
  | Ok a => f a
  | Raise e => Raise e
  end.

(** [try: body except Exception: handler] *)
Definition try_except {A} (body : result A) (handler : result A) : result A :=
  match body with
  | Ok a => Ok a
  | Raise _ => handler
  end.

Definition raises {A} (m : result A) : Prop :=
  match m with
  | Ok _ => False
  | Raise _ => True
  end.

(** ** Values

    Whatever a parser can put in a [Config]: [VOther] stands for every
    object that is neither a [dict] nor a [list] nor one of the scalars
    listed (a float, a date, a tuple, ...), identified by its [repr]. *)
#[warnings="-register-all"]
Inductive value : Type :=
  | VNone
  | VBool (b : bool)
  | VInt (z : Z)
  | VStr (s : string)
  | VOther (repr : string)
  | VList (l : list value)
  | VDict (m : gmap string value).

Abbreviation dict := (gmap string value).

(** [isinstance(data, dict)] and [isinstance(data, list)] *)
Definition is_dict (v : value) : bool :=
  match v with VDict _ => true | _ => false end.
Definition is_list (v : value) : bool :=
  match v with VList _ => true | _ => false end.

(** ** Strings *)

Definition ascii_eqb (a b : ascii) : bool := bool_decide (a = b).

(** [s.rfind(c)]: the highest index of [c] in [s], or [-1]. *)
Fixpoint rfind (s : string) (c : ascii) : Z :=
  match s with
  | EmptyString => -1
  | String a s' =>
      let r := rfind s' c in
      if 0 <=? r then r + 1 else if ascii_eqb a c then 0 else -1
  end.

(** [s[:n]] and [s[n:]] for [0 <= n]. *)
Fixpoint str_take (n : nat) (s : string) : string :=
  match n, s with
  | S n', String a s' => String a (str_take n' s')
  | _, _ => EmptyString
  end.
Fixpoint str_drop (n : nat) (s : string) : string :=
  match n, s with
  | S n', String _ s' => str_drop n' s'
  | _, _ => s
  end.
(** [s[i:j]] for [0 <= i]. *)
Definition str_slice (s : string) (i j : Z) : string :=
  str_take (Z.to_nat (j - i)) (str_drop (Z.to_nat i) s).

Definition startswith (s : string) (c : ascii) : bool :=
  match s with
  | String a _ => ascii_eqb a c
  | EmptyString => false
  end.
Fixpoint endswith (s : string) (c : ascii) : bool :=
  match s with
  | EmptyString => false
  | String a EmptyString => ascii_eqb a c
  | String _ s' => endswith s' c
  end.

(** The truth value of a string: empty strings are false. *)
Definition str_truthy (s : string) : bool :=
  match s with EmptyString => false | _ => true end.

(** [c.lower()] and [s.lower()].  Outside ASCII no character lower-cases
    to one of the letters of the five format identifiers, so membership
    in the format map is not affected by the restriction to ASCII. *)
Definition ascii_lower (c : ascii) : ascii :=
  let n := N_of_ascii c in
  if ((65 <=? n) && (n <=? 90))%N then ascii_of_N (n + 32) else c.
Fixpoint lower (s : string) : string :=
  match s with
  | EmptyString => EmptyString
  | String a s' => String (ascii_lower a) (lower s')
  end.

(** ** [int(s)] on a string

    Whitespace (tab, line feed, vertical tab, form feed, carriage return
    and space) is stripped on both sides, one sign is allowed, and the
    rest has to be a non-empty run of decimal digits in which single
    underscores may separate digits.  The limit that interpreters since
    3.11 put on the number of digits of the string (4300 unless it is
    changed or switched off) is not modelled: a segment with more digits
    than that raises [ValueError] there and converts here. *)
Definition is_pyspace (c : ascii) : bool :=
  let n := N_of_ascii c in
  (((9 <=? n) && (n <=? 13)) || (n =? 32))%N.

Fixpoint lstrip (s : string) : string :=
  match s with
  | String a s' => if is_pyspace a then lstrip s' else s
  | EmptyString => EmptyString
  end.
Definition rstrip (s : string) : string := String.rev (lstrip (String.rev s)).
Definition strip (s : string) : string := rstrip (lstrip s).

Definition digit_of (c : ascii) : option Z :=
  let n := N_of_ascii c in
  if ((48 <=? n) && (n <=? 57))%N then Some (Z.of_N n - 48) else None.

Fixpoint digits_go (s : string) (acc : Z) (after_digit : bool) : option Z :=
  match s with
  | EmptyString => if after_digit then Some acc else None
  | String c s' =>
      match digit_of c with
      | Some d => digits_go s' (10 * acc + d) true
      | None =>
          if ascii_eqb c "_"%char && after_digit
          then digits_go s' acc false
          else None
      end
  end.

Definition int_of_str (s : string) : result Z :=
  let s := strip s in
  let '(negative, body) :=
    match s with
    | String "-"%char r => (true, r)
    | String "+"%char r => (false, r)
    | _ => (false, s)
    end in
  match digits_go body 0 false with
  | Some n => Ok (if negative then - n else n)
  | None => Raise ValueError
  end.

(** ** Indexing

    [l[i]] on a list: a negative index counts from the end, anything
    outside [-len(l) <= i < len(l)] raises [IndexError]. *)
Definition list_getitem (l : list value) (i : Z) : result value :=
  let i' := if i <? 0 then i + Z.of_nat (length l) else i in
  if (i' <? 0) || (Z.of_nat (length l) <=? i') then Raise IndexError
  else match l !! Z.to_nat i' with
       | Some v => Ok v
       | None => Raise IndexError
       end.

(** [d[k]] on a dict *)
Definition dict_getitem (d : dict) (k : string) : result value :=
  match d !! k with
  | Some v => Ok v
  | None => Raise KeyError
  end.

(** [k in d] *)
Definition dict_contains (d : dict) (k : string) : bool :=
  bool_decide (is_Some (d !! k)).

(** [d.update(m)]: the entries of [m] win. *)
Definition dict_update (d m : dict) : dict := m ∪ d.

End Py.
Export Py.

(** ** [os.path] (POSIX) and the filesystem *)

Module OsPath.

(** [genericpath._splitext(p, "/", None, ".")]: the loop that skips the
    leading dots of the last component runs at most
    [dotIndex - filenameIndex] times, which is the fuel [n] here. *)
Fixpoint _splitext_loop (n : nat) (p : string) (filenameIndex dotIndex : Z)
  : option (string * string) :=
  match n with
  | O => None
  | S n' =>
      if filenameIndex <? dotIndex then
        if negb (bool_decide
                   (str_slice p filenameIndex (filenameIndex + 1) = "."))
        then Some (str_take (Z.to_nat dotIndex) p,
                   str_drop (Z.to_nat dotIndex) p)
        else _splitext_loop n' p (filenameIndex + 1) dotIndex
      else None
  end.

Definition splitext (p : string) : string * string :=
  let sepIndex := rfind p "/"%char in
  let dotIndex := rfind p "."%char in
  let found :=
    if sepIndex <? dotIndex then
      let filenameIndex := sepIndex + 1 in
      _splitext_loop (Z.to_nat (dotIndex - filenameIndex)) p
                     filenameIndex dotIndex
    else None in
  match found with
  | Some r => r
  | None => (p, str_take 0 p)
  end.

(** [posixpath.join(a, b)] *)
Definition join (a b : string) : string :=
  if startswith b "/"%char then b
  else if negb (str_truthy a) || endswith a "/"%char then a +:+ b
  else a +:+ "/" +:+ b.

End OsPath.

(** What a path names: a regular file with its text, or a directory. *)
Inductive fnode : Type :=
  | File (content : string)
  | Directory.

Abbreviation filesystem := (string → option fnode).

(** [os.path.exists(path)] *)
Definition exists_ (fs : filesystem) (path : string) : bool :=
  match fs path with
  | Some _ => true
  | None => false
  end.

(** [open(path)] for reading, giving the text of the stream. *)
Definition open (fs : filesystem) (path : string) : result string :=
  match fs path with
  | Some (File content) => Ok content
  | Some Directory => Raise (IsADirectoryError path)
  | None => Raise (FileNotFoundError path)
  end.

(** ** [configparser.ConfigParser]

    The state of a parser after [read]: its sections in file order, each
    with its own options as they stand in the file, and the options of
    the [DEFAULT] section, which every section inherits.  Reading a
    section as a dict is left to the library (see [section_dict] below). *)
Record ConfigParser : Type := {
  _sections : list (string * gmap string string);
  _defaults : gmap string string
}.

Definition empty_parser : ConfigParser :=
  {| _sections := []; _defaults := ∅ |}.

(** [config.sections()] *)
Definition sections (config : ConfigParser) : list string :=
  (_sections config).*1.

Fixpoint assoc {A} (l : list (string * A)) (k : string) : option A :=
  match l with
  | [] => None
  | (k', a) :: l' => if decide (k' = k) then Some a else assoc l' k
  end.

(** ** The Config store and the Loader *)

Abbreviation Config := (gmap string value).

Record Loader : Type := {
  filename : string;
  filetype : option string;
  paths : list string;
  defaults : option dict
}.

(** A path segment after the conversion [get_recursive] applies to it. *)
Inductive key : Type :=
  | KStr (s : string)
  | KInt (i : Z).

(** The outcome of a part of a loop body: go on, or [return v]. *)
Inductive flow (A : Type) : Type :=
  | Continue (a : A)
  | Return (v : value).
Global Arguments Continue {A} a.
Global Arguments Return {A} v.

(** [key in data] and [data[key]] for a dict or a list; keys of a dict
    are strings, indices of a list are integers. *)
Definition contains (data : value) (k : key) : bool :=
  match data, k with
  | VDict m, KStr s => dict_contains m s
  | _, _ => false
  end.

Definition getitem (data : value) (k : key) : result value :=
  match data, k with
  | VDict m, KStr s => dict_getitem m s
  | VDict _, KInt _ => Raise KeyError
  | VList l, KInt i => list_getitem l i
  | _, _ => Raise TypeError
  end.

(** [Loader._from_map] *)
Definition _from_map : gmap string string :=
  list_to_map [("json", "from_json"); ("toml", "from_toml");
               ("yaml", "from_yaml"); ("ini", "from_ini");
               ("env", "from_dotenv")].

(** [name in self._from_map] *)
Definition in_from_map (name : string) : bool :=
  bool_decide (is_Some (_from_map !! name)).

(** [x or y] on an optional string and on an optional dict: [None] and
    the empty value are both false. *)
Definition str_or_none (o : option string) : option string :=
  match o with
  | Some s => if str_truthy s then Some s else None
  | None => None
  end.

Section Conftastic.

(** The collaborators outside the repository: the filesystem, the
    [load] functions of jstyleson, toml and yaml on the text of a stream,
    the parsing that [ConfigParser.read] does on the text of a file it
    could open, [dict(config[section])] of configparser, and
    [dotenv.dotenv_values] on an optional path.

    [section_dict config section] is [dict(config[section])]: the options
    of the section and of [DEFAULT] with their values as the library
    hands them out.  It interpolates each value when it is read, so the
    strings can differ from those in the file, and it raises when a value
    cannot be interpolated. *)
Variable fs : filesystem.
Variables json_load toml_load yaml_load : string → result dict.
Variable ini_parse : string → result ConfigParser.
Variable section_dict : ConfigParser → string → result (gmap string string).
Variable dotenv_values : option string → result dict.

(** [ConfigParser().read(filename)]: a file that cannot be opened is
    skipped without an error. *)
Definition ConfigParser_read (filename : string) : result ConfigParser :=
  match open fs filename with
  | Ok text => ini_parse text
  | Raise _ => Ok empty_parser
  end.

(** *** Config *)

Definition Config_init (defaults : option dict) : Config :=
  match defaults with
  | Some d => d
  | None => ∅
  end.

Definition from_file (self : Config) (filename : string)
    (load : string → result dict) (silent : bool) : result Config :=
  if silent && negb (exists_ fs filename) then Ok self
  else
    f ← open fs filename;
    m ← load f;
    Ok (dict_update self m).

Definition from_json (self : Config) (filename : string) (silent : bool)
  : result Config :=
  self ← from_file self filename json_load silent;
  Ok self.

Definition from_toml (self : Config) (filename : string) (silent : bool)
  : result Config :=
  self ← from_file self filename toml_load silent;
  Ok self.

Definition from_yaml (self : Config) (filename : string) (silent : bool)
  : result Config :=
  self ← from_file self filename yaml_load silent;
  Ok self.

(** The loop of [from_ini]: [self[section] = dict(config[section])]. *)
Fixpoint from_ini_loop (config : ConfigParser) (names : list string)
    (self : Config) : result Config :=
  match names with
  | [] => Ok self
  | section :: rest =>
      d ← section_dict config section;
      from_ini_loop config rest (<[section := VDict (VStr <$> d)]> self)
  end.

Definition from_ini (self : Config) (filename : string) (silent : bool)
  : result Config :=
  if silent && negb (exists_ fs filename) then Ok self
  else
    config ← ConfigParser_read filename;
    from_ini_loop config (sections config) self.

Definition from_dotenv (self : Config) (filename : option string)
    (silent : bool) : result Config :=
  let missing :=
    match str_or_none filename with
    | Some f => negb (exists_ fs f)
    | None => false
    end in
  if missing then
    if silent then Ok self else Raise (IOError "File not found")
  else
    m ← dotenv_values filename;
    Ok (dict_update self m).

Definition get (self : Config) (name : string) (fallback : value) : value :=
  if dict_contains self name
  then match self !! name with Some v => v | None => fallback end
  else fallback.

(** The conversion of the segment when the node is a list, with its
    [try]/[except] that returns the fallback. *)
Definition convert_path (data : value) (path : string) (fallback : value)
  : flow key :=
  if is_list data then
    match int_of_str path with
    | Ok i => Continue (KInt i)
    | Raise _ => Return fallback
    end
  else Continue (KStr path).

(** The loop of [get_recursive], from the node [data] on. *)
Fixpoint get_recursive_from (data : value) (setting : list string)
    (fallback : value) : result value :=
  match setting with
  | [] => Ok data
  | path :: rest =>
      if negb (is_dict data || is_list data) then Ok fallback
      else if is_dict data && negb (contains data (KStr path))
      then Ok fallback
      else
        match convert_path data path fallback with
        | Return v => Ok v
        | Continue path =>
            match getitem data path with
            | Ok data => get_recursive_from data rest fallback
            | Raise _ => Ok fallback
            end
        end
  end.

Definition get_recursive (self : Config) (setting : list string)
    (fallback : value) : result value :=
  get_recursive_from (VDict self) setting fallback.

(** *** Loader *)

Definition set_defaults (self : Loader) (defaults : option dict) : Loader :=
  {| filename := filename self; filetype := filetype self;
     paths := paths self; defaults := defaults |}.

Definition add_folder_path (self : Loader) (path : string) : Loader :=
  {| filename := filename self; filetype := filetype self;
     paths := paths self ++ [path]; defaults := defaults self |}.

Definition _get_filetype (self : Loader) : result string :=
  filetype ←
    match str_or_none (filetype self) with
    | Some filetype => Ok filetype
    | None =>
        let ext := (OsPath.splitext (filename self)).2 in
        if Z.of_nat (String.length ext) <? 1 then
          Raise (UnknownFileType
                   ("Could not find file type from file name: "
                    +:+ filename self))
        else Ok (str_drop 1 ext)
    end;
  let filetype_l := lower filetype in
  if negb (in_from_map filetype_l) then
    Raise (UnknownFileType ("Unknown file type: " +:+ filetype))
  else Ok filetype.

(** [getattr(config, name)] for the merge methods, each with its default
    [silent=False]; the bound object is passed explicitly. *)
Definition getattr (name : string)
  : result (Config → string → result Config) :=
  if decide (name = "from_json") then Ok (λ c p, from_json c p false)
  else if decide (name = "from_toml") then Ok (λ c p, from_toml c p false)
  else if decide (name = "from_yaml") then Ok (λ c p, from_yaml c p false)
  else if decide (name = "from_ini") then Ok (λ c p, from_ini c p false)
  else if decide (name = "from_dotenv")
  then Ok (λ c p, from_dotenv c (Some p) false)
  else Raise (AttributeError name).

(** The loop of [build] over the search paths, on the pair of the
    config and [config_file_found]. *)
Fixpoint build_loop (loader : Config → string → result Config)
    (filename : string) (paths : list string)
    (config : Config) (config_file_found : bool)
  : result (Config * bool) :=
  match paths with
  | [] => Ok (config, config_file_found)
  | path :: rest =>
      let full_path := OsPath.join path filename in
      if negb (exists_ fs full_path)
      then build_loop loader filename rest config config_file_found
      else
        config ← loader config full_path;
        build_loop loader filename rest config true
  end.

Definition build (self : Loader) (silent : bool) : result Config :=
  filetype ← _get_filetype self;
  if negb (in_from_map filetype) then
    Raise (UnknownFileType ("Unknown file type: " +:+ filetype))
  else
    let config := Config_init (defaults self) in
    name ← from_option Ok (Raise KeyError) (_from_map !! filetype);
    loader ← getattr name;
    r ← build_loop loader (filename self) (paths self) config false;
    if negb r.2 && negb silent then
      Raise (NoConfigFileFound "No configration file found")
    else Ok r.1.

End Conftastic.

(** ** What a file assigns

    The mapping that a merge overlays on the store, separately from the
    merge methods: for [ini] one key per section, mapped to the dict of
    strings that the library gives for the section. *)

Section Mappings.

Variable fs : filesystem.
Variables json_load toml_load yaml_load : string → result dict.
Variable ini_parse : string → result ConfigParser.
Variable section_dict : ConfigParser → string → result (gmap string string).
Variable dotenv_values : option string → result dict.

(** The entries for the sections [names], or the first error among
    their dicts. *)
Fixpoint ini_items (config : ConfigParser) (names : list string)
  : result (list (string * value)) :=
  match names with
  | [] => Ok []
  | section :: rest =>
      d ← section_dict config section;
      items ← ini_items config rest;
      Ok ((section, VDict (VStr <$> d)) :: items)
  end.

Definition ini_mapping (config : ConfigParser) : result dict :=
  items ← ini_items config (sections config);
  Ok (list_to_map items).

(** What [load] makes of the file at [path]. *)
Definition load_file (load : string → result dict) (path : string)
  : result dict :=
  f ← open fs path;
  load f.

(** The mapping of the file at [path] read in the format [ft]. *)
Definition parse_file (ft : string) (path : string) : result dict :=
  if decide (ft = "json") then load_file json_load path
  else if decide (ft = "toml") then load_file toml_load path
  else if decide (ft = "yaml") then load_file yaml_load path
  else if decide (ft = "ini") then
    config ← ConfigParser_read fs ini_parse path;
    ini_mapping config
  else if decide (ft = "env") then dotenv_values (Some path)
  else Raise (UnknownFileType ft).

End Mappings.

(** [c'] is [self] overlaid with [M]: the keys of [M] carry the values of
    [M], every other key is as it was in [self]. *)
Definition overlays (M self c' : dict) : Prop :=
  (∀ k v, M !! k = Some v → c' !! k = Some v) ∧
  (∀ k, M !! k = None → c' !! k = self !! k).

(** No search path of the loader holds a candidate file. *)
Definition no_candidate (fs : filesystem) (self : Loader) : Prop :=
  ∀ path, path ∈ paths self →
    exists_ fs (OsPath.join path (filename self)) = false.

(** [s] consists of dots only (the empty string included). *)
Fixpoint all_dots (s : string) : bool :=
  match s with
  | EmptyString => true
  | String a s' => ascii_eqb a "."%char && all_dots s'
  end.

(** The node the traversal stands on after the segments [pre], each of
    which selected a child: a present key of a dict, or an index in
    range of a list. *)
Inductive reaches (data : value) : list string → value → Prop :=
  | reaches_nil : reaches data [] data
  | reaches_key pre path m child :
      reaches data pre (VDict m) →
      m !! path = Some child →
      reaches data (pre ++ [path]) child
  | reaches_index pre path l i child :
      reaches data pre (VList l) →
      int_of_str path = Ok i →
      list_getitem l i = Ok child →
      reaches data (pre ++ [path]) child.

(** The ways a step from [node] along [path] fails. *)
Definition step_fails (node : value) (path : string) : Prop :=
  match node with
  | VDict m => m !! path = None
  | VList l =>
      match int_of_str path with
      | Ok i => i < - Z.of_nat (length l) ∨ Z.of_nat (length l) ≤ i
      | Raise _ => True
      end
  | _ => True
  end.

(** ** Format resolution in the words of its description

    The five recognized identifiers, lower-casing by the alphabet, and
    what an extension is, written down apart from the code. *)

Definition formats : list string := ["json"; "toml"; "yaml"; "ini"; "env"].

Definition lowered_char (c : ascii) : ascii :=
  match c with
  | "A" => "a" | "B" => "b" | "C" => "c" | "D" => "d" | "E" => "e"
  | "F" => "f" | "G" => "g" | "H" => "h" | "I" => "i" | "J" => "j"
  | "K" => "k" | "L" => "l" | "M" => "m" | "N" => "n" | "O" => "o"
  | "P" => "p" | "Q" => "q" | "R" => "r" | "S" => "s" | "T" => "t"
  | "U" => "u" | "V" => "v" | "W" => "w" | "X" => "x" | "Y" => "y"
  | "Z" => "z" | _ => c
  end%char.

Fixpoint lowered (s : string) : string :=
  match s with
  | EmptyString => EmptyString
  | String c s' => String (lowered_char c) (lowered s')
  end.

(** [c in s] *)
Fixpoint has_char (s : string) (c : ascii) : bool :=
  match s with
  | EmptyString => false
  | String a s' => bool_decide (a = c) || has_char s' c
  end.

(** No explicit filetype was given: none at all, or the empty string,
    which the code takes for none. *)
Definition no_filetype (self : Loader) : Prop :=
  filetype self = None ∨ filetype self = Some "".

(** [ext] is the extension of [filename] in the sense of
    [os.path.splitext]: the filename is [dir ++ base ++ "." ++ ext],
    where [dir] is empty or ends in a slash, the rest holds no slash,
    [base] has a character other than a dot, and [ext] holds no dot. *)
Definition extension_of (filename ext : string) : Prop :=
  ∃ dir base,
    filename = dir +:+ base +:+ "." +:+ ext ∧
    (dir = "" ∨ ∃ d, dir = d +:+ "/") ∧
    has_char base "/" = false ∧
    (∃ c, has_char base c = true ∧ c ≠ "."%char) ∧
    has_char ext "/" = false ∧
    has_char ext "." = false.

(** The format string that resolution settles on: the explicit filetype,
    or else the extension of the filename. *)
Definition resolves_to (self : Loader) (ft : string) : Prop :=
  (filetype self = Some ft ∧ ft ≠ "") ∨
  (no_filetype self ∧ extension_of (filename self) ft).

(** ** A small installation to run the model on *)

Module Sample.

Definition table {A} (t : list (string * A)) (text : string) : result A :=
  match assoc t text with
  | Some a => Ok a
  | None => Raise (ParserError text)
  end.

Definition fs : filesystem :=
  assoc [("/etc/app/settings.json", File "K: etc");
         ("/home/me/settings.json", File "K: home");
         ("/etc/app/settings.ini", File "[server] host=localhost");
         ("/etc/app", Directory);
         ("/home/me", Directory)].

Definition load : string → result dict :=
  table [("K: etc", {[ "K" := VStr "etc"; "port" := VInt 80 ]});
         ("K: home", {[ "K" := VStr "home" ]})].

Definition ini_parse : string → result ConfigParser :=
  table [("[server] host=localhost",
          {| _sections := [("server", {[ "host" := "localhost" ]})];
             _defaults := ∅ |})].

(** A stand-in for the library on files whose values need no
    interpolation: the options of the section over the defaults. *)
Definition section_dict (config : ConfigParser) (section : string)
  : result (gmap string string) :=
  match assoc (_sections config) section with
  | Some options => Ok (options ∪ _defaults config)
  | None => Raise KeyError
  end.

Definition dotenv_values (filename : option string) : result dict :=
  match filename with
  | Some path => load_file fs load path
  | None => Ok ∅
  end.

Definition build : Loader → bool → result Config :=
  build fs load load load ini_parse section_dict dotenv_values.

Definition settings (filetype : option string) : Loader :=
  add_folder_path
    (add_folder_path
       {| filename := "settings.json"; filetype := filetype;
          paths := []; defaults := None |}
       "/etc/app")
    "/home/me".

Definition app_config : Loader :=
  {| filename := "app.config"; filetype := None;
     paths := ["/etc/app"];
     defaults := Some {[ "debug" := VBool false ]} |}.

Definition settings_nowhere : Loader :=
  {| filename := "settings.json"; filetype := None;
     paths := ["/opt"; "/srv/app"];
     defaults := Some {[ "debug" := VBool false ]} |}.

Definition conf_d_app : Loader :=
  {| filename := "conf.d/app.toml"; filetype := None;
     paths := []; defaults := None |}.

Definition dot_toml : Loader :=
  {| filename := "/etc/app/.toml"; filetype := None;
     paths := []; defaults := None |}.

Definition upper_yaml : Loader :=
  {| filename := "app.toml"; filetype := Some "YAML";
     paths := []; defaults := None |}.

Definition dot_env : Loader :=
  {| filename := ".env"; filetype := None;
     paths := ["/etc/app"]; defaults := None |}.

Definition nested : Config :=
  {[ "a" := VDict {[ "b" := VList [VInt 10; VInt 20] ]};
     "name" := VStr "x" ]}.

Definition old_settings : Config :=
  {[ "K" := VStr "old"; "debug" := VBool false ]}.

End Sample.

(** ** The environment

    [os.environ.items()] is a list of name and value pairs, in the order
    of the mapping; the names of a mapping are distinct. *)

(** [s.startswith(prefix)] on strings *)
Fixpoint str_startswith (s prefix : string) {struct prefix} : bool :=
  match prefix, s with
  | EmptyString, _ => true
  | String _ _, EmptyString => false
  | String a prefix', String b s' => ascii_eqb b a && str_startswith s' prefix'
  end.

(** The loop of [from_environment]: [self[key[length:]] = value] for the
    names that start with [search]. *)
Fixpoint from_environment_loop (search : string) (length : nat)
    (items : list (string * string)) (self : Config) : Config :=
  match items with
  | [] => self
  | (key, value) :: rest =>
      if str_startswith key search
      then from_environment_loop search length rest
             (<[str_drop length key := VStr value]> self)
      else from_environment_loop search length rest self
  end.

(** [Config.from_environment]; nothing in it can raise. *)
Definition from_environment (environ : list (string * string))
    (self : Config) (prefix : string) : Config :=
  let search := prefix +:+ "_" in
  let length := String.length search in
  from_environment_loop search length environ self.

(** The loader [self] with another list of search paths. *)
Definition with_paths (self : Loader) (ps : list string) : Loader :=
  {| filename := filename self; filetype := filetype self;
     paths := ps; defaults := defaults self |}.

(** A second installation, with a file that does not parse and a
    directory where a file is expected. *)
Module Demo.

Definition environ : list (string * string) :=
  [("APP_HOST", "localhost"); ("APP_PORT", "8080"); ("OTHER", "1");
   ("APP_", "bare")].

Definition fs : filesystem :=
  assoc [("/etc/app/settings.json", File "K: etc");
         ("/home/me/settings.json", File "K: home");
         ("/srv/settings.json", File "{oops");
         ("/mnt/settings.json", Directory);
         ("/etc/app/settings.ini", File "[server] host=localhost")].

Definition dotenv_values (filename : option string) : result dict :=
  match filename with
  | Some path => load_file fs Sample.load path
  | None => Ok ∅
  end.

Definition build : Loader → bool → result Config :=
  build fs Sample.load Sample.load Sample.load Sample.ini_parse
    Sample.section_dict dotenv_values.

Definition parse_file : string → string → result dict :=
  parse_file fs Sample.load Sample.load Sample.load Sample.ini_parse
    Sample.section_dict dotenv_values.

Definition loader (ps : list string) : Loader :=
  {| filename := "settings.json"; filetype := None; paths := ps;
     defaults := Some {[ "debug" := VBool false; "K" := VStr "default" ]} |}.

Definition ini_fs : filesystem :=
  assoc [("/srv/limits.ini",
          File "[server] host=localhost [limits] rate=100%")].

Definition limits_config : ConfigParser :=
  {| _sections := [("server", {[ "host" := "localhost" ]});
                   ("limits", {[ "rate" := "100%" ]})];
     _defaults := ∅ |}.

Definition ini_parse : string → result ConfigParser :=
  Sample.table [("[server] host=localhost [limits] rate=100%",
                 limits_config)].

(** A stand-in for the library that gives up on a section in which a
    value holds a percent sign. *)
Definition section_dict (config : ConfigParser) (section : string)
  : result (gmap string string) :=
  d ← Sample.section_dict config section;
  if bool_decide (map_Forall (λ _ value, has_char value "%" = false) d)
  then Ok d
  else Raise (ParserError "InterpolationSyntaxError").

End Demo.

(** * Properties *)

Ltac case_compare :=
  repeat match goal with
    | |- context [?a <? ?b] => destruct (Z.ltb_spec a b); try lia; cbn [orb]
    | |- context [?a <=? ?b] => destruct (Z.leb_spec a b); try lia; cbn [orb]
    end.

(** ** Strings and [splitext] *)

Section Strings.
Implicit Types (s : string) (c : ascii).

Lemma str_app_cons a s1 s2 : String a s1 +:+ s2 = String a (s1 +:+ s2).
Proof. done. Qed.

Lemma str_app_assoc s1 s2 s3 : (s1 +:+ s2) +:+ s3 = s1 +:+ s2 +:+ s3.
Proof.
  induction s1 as [|a s1 IH]; [done|]. rewrite !str_app_cons. by rewrite IH.
Qed.

Lemma str_length_app s1 s2 :
  String.length (s1 +:+ s2) = (String.length s1 + String.length s2)%nat.
Proof.
  induction s1 as [|a s1 IH]; [done|]. rewrite str_app_cons. simpl.
  by rewrite IH.
Qed.

Lemma rfind_bounds s c : -1 ≤ rfind s c < Z.of_nat (String.length s).
Proof.
  induction s as [|a s IH]; simpl; [lia|].
  destruct (Z.leb_spec 0 (rfind s c)); [lia|].
  destruct (ascii_eqb a c); lia.
Qed.

Lemma rfind_app s1 s2 c :
  rfind (s1 +:+ s2) c
  = if 0 <=? rfind s2 c then Z.of_nat (String.length s1) + rfind s2 c
    else rfind s1 c.
Proof.
  induction s1 as [|a s1 IH].
  - change ("" +:+ s2) with s2. pose proof (rfind_bounds s2 c).
    destruct (Z.leb_spec 0 (rfind s2 c)); simpl; lia.
  - rewrite str_app_cons. simpl rfind. rewrite IH.
    pose proof (rfind_bounds s1 c).
    destruct (Z.leb_spec 0 (rfind s2 c)).
    + destruct (Z.leb_spec 0 (Z.of_nat (String.length s1) + rfind s2 c));
        simpl String.length; lia.
    + done.
Qed.

Lemma rfind_endswith s c :
  endswith s c = true → rfind s c = Z.of_nat (String.length s) - 1.
Proof.
  induction s as [|a s IH]; [done|].
  simpl endswith. destruct s as [|b s].
  - intros H. simpl. rewrite H. lia.
  - intros H. specialize (IH H). simpl rfind in *. rewrite IH.
    simpl String.length.
    destruct (Z.leb_spec 0 (Z.of_nat (S (String.length s)) - 1)); lia.
Qed.

Lemma str_drop_app s1 s2 : str_drop (String.length s1) (s1 +:+ s2) = s2.
Proof. induction s1; [by destruct s2|done]. Qed.

Lemma str_take_app s1 s2 : str_take (String.length s1) (s1 +:+ s2) = s1.
Proof.
  induction s1 as [|a s1 IH]; [by destruct s2|].
  rewrite str_app_cons. simpl. by rewrite IH.
Qed.

Lemma str_drop_S n s : str_drop (S n) s = str_drop 1 (str_drop n s).
Proof.
  revert s. induction n as [|n IH]; intros s; [by destruct s|].
  destruct s as [|a s]; [done|].
  change (str_drop (S (S n)) (String a s)) with (str_drop (S n) s).
  by rewrite IH.
Qed.

(** The loop of [splitext] stops at the first character of the last
    component that is not a dot. *)
Lemma splitext_loop_finds p base : ∀ tail idx,
  0 ≤ idx →
  str_drop (Z.to_nat idx) p = base +:+ tail →
  all_dots base = false →
  let dotIndex := idx + Z.of_nat (String.length base) in
  OsPath._splitext_loop (String.length base) p idx dotIndex
  = Some (str_take (Z.to_nat dotIndex) p, str_drop (Z.to_nat dotIndex) p).
Proof.
  induction base as [|a base IH]; intros tail idx Hidx Hdrop Hdots; [done|].
  simpl all_dots in Hdots. cbn zeta. simpl String.length.
  simpl OsPath._splitext_loop.
  destruct (Z.ltb_spec idx (idx + Z.of_nat (S (String.length base)))); [|lia].
  unfold str_slice. rewrite Hdrop.
  replace (Z.to_nat (idx + 1 - idx)) with 1%nat by lia.
  rewrite str_app_cons. simpl str_take.
  destruct (bool_decide (String a "" = ".")) eqn:Ha; simpl negb; cbv iota.
  - apply bool_decide_eq_true in Ha. injection Ha as ->.
    simpl in Hdots.
    replace (idx + Z.of_nat (S (String.length base)))
      with (idx + 1 + Z.of_nat (String.length base)) by lia.
    apply (IH tail); [lia| |done].
    replace (Z.to_nat (idx + 1)) with (S (Z.to_nat idx)) by lia.
    by rewrite str_drop_S, Hdrop.
  - done.
Qed.

(** A filename [dir ++ base ++ "." ++ ft] whose last component [base]
    has a character other than a dot splits before its last dot. *)
Lemma splitext_extension dir base ft :
  dir = "" ∨ endswith dir "/" = true →
  rfind base "/" = -1 →
  all_dots base = false →
  rfind ft "/" = -1 →
  rfind ft "." = -1 →
  OsPath.splitext (dir +:+ base +:+ "." +:+ ft) = (dir +:+ base, "." +:+ ft).
Proof.
  intros Hdir Hbase Hdots Hft_sep Hft_dot.
  set (p := dir +:+ base +:+ "." +:+ ft).
  assert (rfind ("." +:+ ft) "/" = -1) as Htail_sep.
  { change ("." +:+ ft) with (String "." ft). simpl. by rewrite Hft_sep. }
  assert (rfind ("." +:+ ft) "." = 0) as Htail_dot.
  { change ("." +:+ ft) with (String "." ft). simpl. by rewrite Hft_dot. }
  assert (rfind p "/" = Z.of_nat (String.length dir) - 1) as Hsep.
  { unfold p. rewrite (rfind_app dir), (rfind_app base), Htail_sep, Hbase.
    simpl.
    destruct Hdir as [->|Hdir]; [done|by apply rfind_endswith]. }
  assert (rfind p "." = Z.of_nat (String.length dir + String.length base))
    as Hdot.
  { unfold p. rewrite (rfind_app dir), (rfind_app base), Htail_dot.
    simpl.
    destruct (Z.leb_spec 0 (Z.of_nat (String.length base) + 0)); lia. }
  unfold OsPath.splitext. fold p. rewrite Hsep, Hdot.
  destruct (Z.ltb_spec (Z.of_nat (String.length dir) - 1)
              (Z.of_nat (String.length dir + String.length base))); [|lia].
  replace (Z.to_nat
             (Z.of_nat (String.length dir + String.length base)
              - (Z.of_nat (String.length dir) - 1 + 1)))
    with (String.length base) by lia.
  replace (Z.of_nat (String.length dir + String.length base))
    with (Z.of_nat (String.length dir) - 1 + 1
          + Z.of_nat (String.length base)) by lia.
  rewrite (splitext_loop_finds p base ("." +:+ ft)); [|lia| |done].
  - replace (Z.to_nat (Z.of_nat (String.length dir) - 1 + 1
                       + Z.of_nat (String.length base)))
      with (String.length (dir +:+ base)) by (rewrite str_length_app; lia).
    unfold p. rewrite <- str_app_assoc.
    by rewrite str_take_app, str_drop_app.
  - replace (Z.to_nat (Z.of_nat (String.length dir) - 1 + 1))
      with (String.length dir) by lia.
    unfold p. by rewrite str_drop_app.
Qed.

End Strings.

(** ** Dictionaries, lists and the parser state *)

Lemma in_from_map_inv ft :
  in_from_map ft = true →
  ft = "json" ∨ ft = "toml" ∨ ft = "yaml" ∨ ft = "ini" ∨ ft = "env".
Proof.
  unfold in_from_map, _from_map. intros H%bool_decide_eq_true.
  destruct H as [v Hv]. simpl in Hv.
  repeat (apply lookup_insert_Some in Hv as [[<- _]|[_ Hv]]; [tauto|]).
  by rewrite lookup_empty in Hv.
Qed.

Lemma overlays_update (M self : dict) : overlays M self (dict_update self M).
Proof.
  unfold dict_update. split.
  - intros k v Hk. by apply lookup_union_Some_l.
  - intros k Hk. by apply lookup_union_r.
Qed.

Lemma dict_contains_Some (m : dict) k v :
  m !! k = Some v → dict_contains m k = true.
Proof. intros H. apply bool_decide_eq_true. by eexists. Qed.

Lemma dict_contains_None (m : dict) k :
  m !! k = None → dict_contains m k = false.
Proof.
  intros H. apply bool_decide_eq_false. rewrite H. by intros [? ?].
Qed.

Lemma list_getitem_out_of_range l i :
  i < - Z.of_nat (length l) ∨ Z.of_nat (length l) ≤ i →
  list_getitem l i = Raise IndexError.
Proof.
  intros H. unfold list_getitem.
  destruct (Z.ltb_spec i 0); case_compare; done.
Qed.

Lemma list_getitem_nonneg l i child :
  0 ≤ i → l !! Z.to_nat i = Some child → list_getitem l i = Ok child.
Proof.
  intros Hi Hl. apply lookup_lt_Some in Hl as Hlt.
  unfold list_getitem.
  destruct (Z.ltb_spec i 0); try lia; case_compare. by rewrite Hl.
Qed.

Lemma list_getitem_negative l i child :
  i < 0 → 0 ≤ i + Z.of_nat (length l) →
  l !! Z.to_nat (i + Z.of_nat (length l)) = Some child →
  list_getitem l i = Ok child.
Proof.
  intros Hi Hlo Hl. unfold list_getitem.
  destruct (Z.ltb_spec i 0); try lia; case_compare. by rewrite Hl.
Qed.

Lemma assoc_is_Some {A} (l : list (string * A)) k :
  k ∈ l.*1 → is_Some (assoc l k).
Proof.
  induction l as [|[k' a] l IH]; simpl.
  - intros H. by apply elem_of_nil in H.
  - intros H. destruct (decide (k' = k)); [by eexists|].
    apply elem_of_cons in H as [->|H]; [done|by apply IH].
Qed.

Lemma assoc_None {A} (l : list (string * A)) k :
  k ∉ l.*1 → assoc l k = None.
Proof.
  induction l as [|[k' a] l IH]; simpl; [done|].
  intros H. apply not_elem_of_cons in H as [Hne H].
  destruct (decide (k' = k)); [congruence|by apply IH].
Qed.

Lemma result_bind_Ok {A B} (a : A) (f : A → result B) : Ok a ≫= f = f a.
Proof. done. Qed.

Section IniLoop.

Context (section_dict : ConfigParser → string → result (gmap string string)).

(** When the entries of the sections [names] can all be built, the one
    for a name among them is the dict of that section. *)
Lemma ini_items_lookup config names : ∀ items k,
  ini_items section_dict config names = Ok items →
  (list_to_map items : dict) !! k
  = if decide (k ∈ names)
    then match section_dict config k with
         | Ok d => Some (VDict (VStr <$> d))
         | Raise _ => None
         end
    else None.
Proof.
  induction names as [|s names IH]; intros items k Hitems;
    simpl in Hitems.
  - injection Hitems as <-.
    by rewrite decide_False by apply not_elem_of_nil.
  - destruct (section_dict config s) as [d|] eqn:Hd; [|done].
    rewrite result_bind_Ok in Hitems.
    destruct (ini_items section_dict config names) as [items'|] eqn:Hi;
      [|done].
    injection Hitems as <-. specialize (IH items' k eq_refl).
    change (list_to_map ((s, VDict (VStr <$> d)) :: items') : dict)
      with (<[s := VDict (VStr <$> d)]> (list_to_map items' : dict)).
    destruct (decide (s = k)) as [->|Hne].
    + rewrite lookup_insert_eq, decide_True by left. by rewrite Hd.
    + rewrite lookup_insert_ne, IH by done.
      destruct (decide (k ∈ names)) as [Hin|Hnin].
      * by rewrite decide_True by (by right).
      * by rewrite decide_False by (by intros [?|?]%elem_of_cons).
Qed.

(** The loop of [from_ini] is one [update] with the entries of the
    sections, and raises the first error among their dicts. *)
Lemma from_ini_loop_items config names : ∀ self,
  from_ini_loop section_dict config names self
  = ini_items section_dict config names
      ≫= λ items, Ok (dict_update self (list_to_map items)).
Proof.
  induction names as [|s names IH]; intros self; simpl.
  - unfold dict_update. by rewrite (left_id_L ∅ (∪)).
  - destruct (section_dict config s) as [d|] eqn:Hd; simpl; [|done].
    rewrite IH.
    destruct (ini_items section_dict config names) as [items|] eqn:Hi;
      simpl; [|done].
    f_equal. unfold dict_update.
    change (list_to_map ((s, VDict (VStr <$> d)) :: items) : dict)
      with (<[s := VDict (VStr <$> d)]> (list_to_map items : dict)).
    apply map_eq. intros k.
    pose proof (ini_items_lookup config names items k Hi) as Hk.
    destruct (decide (s = k)) as [->|Hne].
    + rewrite (lookup_union_Some_l (<[k := _]> _) self k (VDict (VStr <$> d)))
        by apply lookup_insert_eq.
      revert Hk. rewrite Hd. destruct (decide (k ∈ names)); intros Hk.
      * by apply lookup_union_Some_l.
      * rewrite lookup_union_r by done. apply lookup_insert_eq.
    + rewrite !lookup_union. by rewrite !lookup_insert_ne by done.
Qed.

Lemma from_ini_loop_sections config self :
  from_ini_loop section_dict config (sections config) self
  = ini_mapping section_dict config ≫= λ m, Ok (dict_update self m).
Proof.
  rewrite from_ini_loop_items. unfold ini_mapping.
  by destruct (ini_items section_dict config (sections config)).
Qed.

End IniLoop.

(** ** [get_recursive] *)

Lemma get_recursive_from_total setting : ∀ data fallback,
  ∃ v, get_recursive_from data setting fallback = Ok v.
Proof.
  induction setting as [|path rest IH]; intros data fallback; [by eexists|].
  simpl.
  destruct (negb (is_dict data || is_list data)); [by eexists|].
  destruct (is_dict data && negb (contains data (KStr path))); [by eexists|].
  destruct (convert_path data path fallback) as [k|v]; [|by eexists].
  destruct (getitem data k) as [child|e]; [apply IH|by eexists].
Qed.

Lemma step_key (m : dict) path child rest fallback :
  m !! path = Some child →
  get_recursive_from (VDict m) (path :: rest) fallback
  = get_recursive_from child rest fallback.
Proof.
  intros H. simpl. rewrite (dict_contains_Some _ _ _ H). simpl.
  unfold dict_getitem. by rewrite H.
Qed.

Lemma step_index l path i child rest fallback :
  int_of_str path = Ok i →
  list_getitem l i = Ok child →
  get_recursive_from (VList l) (path :: rest) fallback
  = get_recursive_from child rest fallback.
Proof.
  intros Hi Hc. simpl. unfold convert_path. simpl. rewrite Hi. simpl.
  by rewrite Hc.
Qed.

Lemma reaches_descends data pre node :
  reaches data pre node →
  ∀ post fallback,
    get_recursive_from data (pre ++ post) fallback
    = get_recursive_from node post fallback.
Proof.
  induction 1 as [|pre path m child _ IH Hk|pre path l i child _ IH Hi Hc];
    intros post fallback; [done|..];
    rewrite <- (assoc_L (++)); simpl; rewrite IH.
  - by apply step_key.
  - by eapply step_index.
Qed.

Lemma step_fails_fallback node path rest fallback :
  step_fails node path →
  get_recursive_from node (path :: rest) fallback = Ok fallback.
Proof.
  destruct node as [| | | | |l|m]; try done; simpl.
  - unfold convert_path. simpl.
    destruct (int_of_str path) as [i|e]; [|done].
    intros H. by rewrite (list_getitem_out_of_range l i H).
  - intros H. by rewrite (dict_contains_None _ _ H).
Qed.

Lemma reaches_nested_b :
  reaches (VDict Sample.nested) ["a"; "b"] (VList [VInt 10; VInt 20]).
Proof.
  apply (reaches_key _ ["a"] "b" {[ "b" := VList [VInt 10; VInt 20] ]});
    [|reflexivity].
  apply (reaches_key _ [] "a" Sample.nested); [constructor|reflexivity].
Qed.

(** C5: [get_recursive] never raises; it always returns a value, and
    whenever the traversal has reached a node from which the next
    segment cannot select a child (the node is neither a dict nor a
    list, the key is missing, the segment is not an integer, or the
    index is out of range) the value returned is the fallback. *)
Theorem get_recursive_never_raises (self : Config) setting fallback :
  (∃ v, get_recursive self setting fallback = Ok v) ∧
  (∀ pre path post node,
     setting = pre ++ path :: post →
     reaches (VDict self) pre node →
     step_fails node path →
     get_recursive self setting fallback = Ok fallback).
Proof.
  split; [apply get_recursive_from_total|].
  intros pre path post node -> Hreach Hfail. unfold get_recursive.
  rewrite (reaches_descends _ _ _ Hreach). by apply step_fails_fallback.
Qed.

Lemma get_recursive_never_raises_witness :
  reaches (VDict Sample.nested) ["a"; "b"] (VList [VInt 10; VInt 20]) ∧
  step_fails (VList [VInt 10; VInt 20]) "5" ∧
  get_recursive Sample.nested ["a"; "b"; "5"] (VStr "none")
  = Ok (VStr "none").
Proof.
  split; [exact reaches_nested_b|].
  split; [right; vm_compute; discriminate|].
  apply (proj2 (get_recursive_never_raises
                  Sample.nested ["a"; "b"; "5"] (VStr "none"))
           ["a"; "b"] "5" [] (VList [VInt 10; VInt 20]));
    [reflexivity|exact reaches_nested_b|right; vm_compute; discriminate].
Defined.

(** C6, as the code has it: on a list node the segment is converted with
    [int]; a segment that does not convert gives the fallback, an index
    [0 <= i < len] selects element [i], an index [-len <= i < 0] selects
    element [len + i], and any other index gives the fallback. *)
Theorem get_recursive_list_index (self : Config) pre l path rest fallback :
  reaches (VDict self) pre (VList l) →
  (∀ e, int_of_str path = Raise e →
     get_recursive self (pre ++ path :: rest) fallback = Ok fallback) ∧
  (∀ i child, int_of_str path = Ok i →
     0 ≤ i → l !! Z.to_nat i = Some child →
     get_recursive self (pre ++ path :: rest) fallback
     = get_recursive_from child rest fallback) ∧
  (∀ i child, int_of_str path = Ok i →
     i < 0 → 0 ≤ i + Z.of_nat (length l) →
     l !! Z.to_nat (i + Z.of_nat (length l)) = Some child →
     get_recursive self (pre ++ path :: rest) fallback
     = get_recursive_from child rest fallback) ∧
  (∀ i, int_of_str path = Ok i →
     i < - Z.of_nat (length l) ∨ Z.of_nat (length l) ≤ i →
     get_recursive self (pre ++ path :: rest) fallback = Ok fallback).
Proof.
  intros Hreach. unfold get_recursive.
  rewrite (reaches_descends _ _ _ Hreach). repeat split.
  - intros e He. apply step_fails_fallback. simpl. by rewrite He.
  - intros i child Hi Hpos Hl. eapply step_index; [done|].
    by apply list_getitem_nonneg.
  - intros i child Hi Hneg Hlo Hl. eapply step_index; [done|].
    by apply list_getitem_negative.
  - intros i Hi Hout. apply step_fails_fallback. simpl. by rewrite Hi.
Qed.

Lemma get_recursive_list_index_witness :
  reaches (VDict Sample.nested) ["a"; "b"] (VList [VInt 10; VInt 20]) ∧
  int_of_str "x1" = Raise ValueError ∧
  get_recursive Sample.nested (["a"; "b"] ++ ["x1"]) VNone = Ok VNone ∧
  int_of_str "-2" = Ok (-2) ∧
  get_recursive Sample.nested (["a"; "b"] ++ ["-2"]) VNone
  = get_recursive_from (VInt 10) [] VNone.
Proof.
  split; [exact reaches_nested_b|].
  split; [reflexivity|]. split.
  - apply (proj1 (get_recursive_list_index Sample.nested ["a"; "b"]
                    [VInt 10; VInt 20] "x1" [] VNone reaches_nested_b)
             ValueError).
    reflexivity.
  - split; [reflexivity|].
    apply (proj1 (proj2 (proj2
             (get_recursive_list_index Sample.nested ["a"; "b"]
                [VInt 10; VInt 20] "-2" [] VNone reaches_nested_b)))
             (-2) (VInt 10)); [reflexivity|lia|simpl; lia|reflexivity].
Defined.

(** C6, as stated, fails: ["-1"] is not a non-negative integer, yet on
    the list [[10, 20]] it selects the last element instead of giving
    the fallback. *)
Lemma get_recursive_negative_index :
  reaches (VDict Sample.nested) ["a"; "b"] (VList [VInt 10; VInt 20]) ∧
  int_of_str "-1" = Ok (-1) ∧
  (¬ ∃ n, 0 ≤ n ∧ int_of_str "-1" = Ok n) ∧
  get_recursive Sample.nested ["a"; "b"; "-1"] VNone = Ok (VInt 20) ∧
  get_recursive Sample.nested ["a"; "b"; "-1"] VNone ≠ Ok VNone.
Proof.
  split; [exact reaches_nested_b|]. split; [reflexivity|]. split.
  - intros (n & Hn & He). vm_compute in He. injection He as <-. lia.
  - split; [reflexivity|]. intros H. vm_compute in H. discriminate H.
Qed.

(** ** Merging and building *)

Section Properties.

Context (fs : filesystem)
        (json_load toml_load yaml_load : string → result dict)
        (ini_parse : string → result ConfigParser)
        (section_dict : ConfigParser → string → result (gmap string string))
        (dotenv_values : option string → result dict).

Local Abbreviation build' :=
  (build fs json_load toml_load yaml_load ini_parse section_dict dotenv_values).
Local Abbreviation getattr' :=
  (getattr fs json_load toml_load yaml_load ini_parse section_dict dotenv_values).
Local Abbreviation parse_file' :=
  (parse_file fs json_load toml_load yaml_load ini_parse section_dict dotenv_values).

Lemma open_Ok_exists path f : open fs path = Ok f → exists_ fs path = true.
Proof. unfold open, exists_. by destruct (fs path) as [[]|]. Qed.

Lemma exists_false_open path :
  exists_ fs path = false → open fs path = Raise (FileNotFoundError path).
Proof. unfold open, exists_. by destruct (fs path) as [[]|]. Qed.

Lemma dispatch_defined ft :
  in_from_map ft = true →
  ∃ name loader, _from_map !! ft = Some name ∧ getattr' name = Ok loader.
Proof.
  intros H. apply in_from_map_inv in H.
  destruct H as [->|[->|[->|[->| ->]]]]; eexists _, _; split; reflexivity.
Qed.

Lemma getattr_from_map ft name :
  _from_map !! ft = Some name →
  (ft = "json" ∧ getattr' name = Ok (λ c p, from_json fs json_load c p false)) ∨
  (ft = "toml" ∧ getattr' name = Ok (λ c p, from_toml fs toml_load c p false)) ∨
  (ft = "yaml" ∧ getattr' name = Ok (λ c p, from_yaml fs yaml_load c p false)) ∨
  (ft = "ini" ∧ getattr' name = Ok (λ c p, from_ini fs ini_parse section_dict c p false)) ∨
  (ft = "env" ∧
   getattr' name = Ok (λ c p, from_dotenv fs dotenv_values c (Some p) false)).
Proof.
  intros Hname.
  assert (in_from_map ft = true) as Hin
    by (apply bool_decide_eq_true; by eexists).
  apply in_from_map_inv in Hin.
  destruct Hin as [->|[->|[->|[->| ->]]]];
    vm_compute in Hname; injection Hname as <-; tauto.
Qed.

(** Each merge method parses, then updates. *)
Lemma from_file_merges self path load silent :
  exists_ fs path = true →
  from_file fs self path load silent
  = load_file fs load path ≫= λ m, Ok (dict_update self m).
Proof.
  intros Hex. unfold from_file, load_file. rewrite Hex, andb_false_r.
  destruct (open fs path) as [f|e]; simpl; [|done].
  by destruct (load f).
Qed.

Lemma from_ini_merges self path silent :
  from_ini fs ini_parse section_dict self path silent
  = ConfigParser_read fs ini_parse path
      ≫= λ config, ini_mapping section_dict config
                     ≫= λ m, Ok (dict_update self m).
Proof.
  unfold from_ini. destruct (silent && negb (exists_ fs path)) eqn:Hs.
  - apply andb_true_iff in Hs as [_ Hex%negb_true_iff].
    unfold ConfigParser_read. rewrite (exists_false_open _ Hex). simpl.
    unfold dict_update. by rewrite (left_id_L ∅ (∪)).
  - destruct (ConfigParser_read fs ini_parse path) as [config|e]; simpl;
      [|done].
    apply from_ini_loop_sections.
Qed.

Lemma from_dotenv_merges self filename silent :
  (∀ f, str_or_none filename = Some f → exists_ fs f = true) →
  from_dotenv fs dotenv_values self filename silent
  = dotenv_values filename ≫= λ m, Ok (dict_update self m).
Proof.
  intros Hex. unfold from_dotenv.
  destruct (str_or_none filename) as [f|]; [|done].
  by rewrite (Hex f eq_refl).
Qed.

Lemma loader_merges ft name loader self path :
  _from_map !! ft = Some name →
  getattr' name = Ok loader →
  exists_ fs path = true →
  loader self path = parse_file' ft path ≫= λ m, Ok (dict_update self m).
Proof.
  intros Hname Hloader Hex.
  destruct (getattr_from_map ft name Hname)
    as [[-> H]|[[-> H]|[[-> H]|[[-> H]|[-> H]]]]];
    rewrite H in Hloader; injection Hloader as <-.
  - change (parse_file' "json" path) with (load_file fs json_load path).
    unfold from_json. rewrite from_file_merges by done.
    by destruct (load_file fs json_load path).
  - change (parse_file' "toml" path) with (load_file fs toml_load path).
    unfold from_toml. rewrite from_file_merges by done.
    by destruct (load_file fs toml_load path).
  - change (parse_file' "yaml" path) with (load_file fs yaml_load path).
    unfold from_yaml. rewrite from_file_merges by done.
    by destruct (load_file fs yaml_load path).
  - rewrite from_ini_merges.
    change (parse_file' "ini" path) with
      (ConfigParser_read fs ini_parse path
         ≫= λ config, ini_mapping section_dict config).
    by destruct (ConfigParser_read fs ini_parse path).
  - change (parse_file' "env" path) with (dotenv_values (Some path)).
    apply from_dotenv_merges. intros f Hf. simpl in Hf.
    destruct (str_truthy path); by simplify_eq.
Qed.

(** Search paths are kept in the order [add_folder_path] received them. *)
Lemma add_folder_path_order self P1 P2 :
  paths (add_folder_path (add_folder_path self P1) P2)
  = paths self ++ [P1; P2].
Proof. simpl. by rewrite <- (assoc_L (++)). Qed.

Lemma build_loop_no_candidate loader fname ps c found :
  (∀ path, path ∈ ps → exists_ fs (OsPath.join path fname) = false) →
  build_loop fs loader fname ps c found = Ok (c, found).
Proof.
  induction ps as [|p ps IH]; intros Hno; [done|].
  simpl. rewrite Hno by left. simpl. apply IH.
  intros q Hq. apply Hno. by right.
Qed.

Lemma build_loop_two loader fname P1 P2 c c1 c2 :
  exists_ fs (OsPath.join P1 fname) = true →
  loader c (OsPath.join P1 fname) = Ok c1 →
  exists_ fs (OsPath.join P2 fname) = true →
  loader c1 (OsPath.join P2 fname) = Ok c2 →
  build_loop fs loader fname [P1; P2] c false = Ok (c2, true).
Proof.
  intros H1 L1 H2 L2. simpl. rewrite H1. simpl. rewrite L1. simpl.
  rewrite H2. simpl. by rewrite L2.
Qed.

(** C2, as the code has it: when the format resolves to one of the five
    identifiers and no search path holds a candidate file,
    [build(silent=False)] raises [NoConfigFileFound] and
    [build(silent=True)] returns a Config equal to the defaults (empty
    when there are none). *)
Theorem build_no_candidate self ft :
  no_candidate fs self →
  _get_filetype self = Ok ft →
  in_from_map ft = true →
  build' self false
    = Raise (NoConfigFileFound "No configration file found") ∧
  build' self true = Ok (Config_init (defaults self)).
Proof.
  intros Hno Hft Hin.
  destruct (dispatch_defined ft Hin) as (name & loader & Hname & Hloader).
  unfold build. rewrite Hft. simpl. rewrite Hin, Hname. simpl.
  rewrite Hloader. simpl.
  rewrite build_loop_no_candidate by exact Hno.
  split; reflexivity.
Qed.

(** C3: with search paths [[P1; P2]] that both hold the target file,
    the Config that [build] returns maps every key of P2's file to the
    value P2's file gives it, whatever P1's file says. *)
Theorem build_last_path_wins self P1 P2 ft M1 M2 K v silent :
  paths self = [P1; P2] →
  _get_filetype self = Ok ft →
  in_from_map ft = true →
  exists_ fs (OsPath.join P1 (filename self)) = true →
  parse_file' ft (OsPath.join P1 (filename self)) = Ok M1 →
  exists_ fs (OsPath.join P2 (filename self)) = true →
  parse_file' ft (OsPath.join P2 (filename self)) = Ok M2 →
  M2 !! K = Some v →
  ∃ c, build' self silent = Ok c ∧ c !! K = Some v.
Proof.
  intros Hpaths Hft Hin Hex1 HM1 Hex2 HM2 HK.
  destruct (dispatch_defined ft Hin) as (name & loader & Hname & Hloader).
  unfold build. rewrite Hft. simpl. rewrite Hin, Hname. simpl.
  rewrite Hloader. simpl. rewrite Hpaths.
  rewrite (build_loop_two loader _ P1 P2 _
             (dict_update (Config_init (defaults self)) M1)
             (dict_update (dict_update (Config_init (defaults self)) M1) M2));
    try done.
  - simpl. eexists. split; [done|]. by apply lookup_union_Some_l.
  - by rewrite (loader_merges ft name loader _ _ Hname Hloader Hex1), HM1.
  - by rewrite (loader_merges ft name loader _ _ Hname Hloader Hex2), HM2.
Qed.

(** C4: merging the mapping [M] of a file into a Config, through
    [from_file] or any of the per-format methods, gives a Config in
    which every key of [M] has the value of [M] and every other key
    keeps the value it had. *)
Theorem merge_overlays self path silent M :
  (∀ load, load_file fs load path = Ok M →
     ∃ c', from_file fs self path load silent = Ok c' ∧ overlays M self c') ∧
  (parse_file' "json" path = Ok M →
     ∃ c', from_json fs json_load self path silent = Ok c'
           ∧ overlays M self c') ∧
  (parse_file' "toml" path = Ok M →
     ∃ c', from_toml fs toml_load self path silent = Ok c'
           ∧ overlays M self c') ∧
  (parse_file' "yaml" path = Ok M →
     ∃ c', from_yaml fs yaml_load self path silent = Ok c'
           ∧ overlays M self c') ∧
  (parse_file' "ini" path = Ok M →
     ∃ c', from_ini fs ini_parse section_dict self path silent = Ok c'
           ∧ overlays M self c') ∧
  (∀ filename,
     (∀ f, str_or_none filename = Some f → exists_ fs f = true) →
     dotenv_values filename = Ok M →
     ∃ c', from_dotenv fs dotenv_values self filename silent = Ok c'
           ∧ overlays M self c').
Proof.
  assert (∀ load, load_file fs load path = Ok M →
            from_file fs self path load silent = Ok (dict_update self M))
    as Hfile.
  { intros load HM. rewrite from_file_merges; [by rewrite HM|].
    unfold load_file in HM. destruct (open fs path) eqn:Ho; [|done].
    by eapply open_Ok_exists. }
  repeat split.
  - intros load HM. eexists. split; [by apply Hfile|apply overlays_update].
  - intros HM. eexists. unfold from_json. rewrite (Hfile json_load HM).
    split; [done|apply overlays_update].
  - intros HM. eexists. unfold from_toml. rewrite (Hfile toml_load HM).
    split; [done|apply overlays_update].
  - intros HM. eexists. unfold from_yaml. rewrite (Hfile yaml_load HM).
    split; [done|apply overlays_update].
  - intros HM. rewrite from_ini_merges.
    change (parse_file' "ini" path) with
      (ConfigParser_read fs ini_parse path
         ≫= λ config, ini_mapping section_dict config) in HM.
    destruct (ConfigParser_read fs ini_parse path) as [config|]; [|done].
    rewrite result_bind_Ok in *. rewrite HM. eexists.
    split; [done|apply overlays_update].
  - intros filename Hex HM. eexists. rewrite from_dotenv_merges, HM by done.
    split; [done|apply overlays_update].
Qed.

(** C9: [from_dotenv] with a filename that is given and does not exist
    raises [IOError("File not found")] when [silent] is false, and
    returns the Config unchanged when [silent] is true. *)
Theorem from_dotenv_missing_file self f :
  str_truthy f = true →
  exists_ fs f = false →
  from_dotenv fs dotenv_values self (Some f) false
    = Raise (IOError "File not found") ∧
  from_dotenv fs dotenv_values self (Some f) true = Ok self.
Proof.
  intros Hgiven Hex. unfold from_dotenv. simpl. by rewrite Hgiven, Hex.
Qed.

(** C10: on a path that does not exist [from_ini] with [silent=False]
    raises nothing and returns the Config unchanged, whereas
    [from_json], [from_toml] and [from_yaml] raise. *)
Theorem from_ini_missing_file self path :
  exists_ fs path = false →
  from_ini fs ini_parse section_dict self path false = Ok self ∧
  from_json fs json_load self path false = Raise (FileNotFoundError path) ∧
  from_toml fs toml_load self path false = Raise (FileNotFoundError path) ∧
  from_yaml fs yaml_load self path false = Raise (FileNotFoundError path).
Proof.
  intros Hex. repeat split.
  - unfold from_ini, ConfigParser_read. by rewrite (exists_false_open _ Hex).
  - unfold from_json, from_file. by rewrite (exists_false_open _ Hex).
  - unfold from_toml, from_file. by rewrite (exists_false_open _ Hex).
  - unfold from_yaml, from_file. by rewrite (exists_false_open _ Hex).
Qed.

End Properties.

Lemma build_no_candidate_witness :
  no_candidate Sample.fs Sample.settings_nowhere ∧
  _get_filetype Sample.settings_nowhere = Ok "json" ∧
  in_from_map "json" = true ∧
  Sample.build Sample.settings_nowhere false
    = Raise (NoConfigFileFound "No configration file found") ∧
  Sample.build Sample.settings_nowhere true = Ok {[ "debug" := VBool false ]}.
Proof.
  assert (no_candidate Sample.fs Sample.settings_nowhere) as Hno.
  { intros p Hp.
    repeat (apply elem_of_cons in Hp as [->|Hp]; [reflexivity|]).
    by apply elem_of_nil in Hp. }
  split; [exact Hno|]. split; [reflexivity|]. split; [reflexivity|].
  exact (build_no_candidate Sample.fs Sample.load Sample.load Sample.load
           Sample.ini_parse Sample.section_dict Sample.dotenv_values
           Sample.settings_nowhere "json" Hno eq_refl eq_refl).
Defined.

(** C2, as stated, fails: a loader whose format does not resolve raises
    [UnknownFileType] from [build], silent or not, although none of its
    search paths holds a candidate file. *)
Lemma build_silent_unknown_type :
  no_candidate Sample.fs Sample.app_config ∧
  Sample.build Sample.app_config true
    = Raise (UnknownFileType "Unknown file type: config") ∧
  Sample.build Sample.app_config false
    = Raise (UnknownFileType "Unknown file type: config") ∧
  ¬ (Sample.build Sample.app_config false
       = Raise (NoConfigFileFound "No configration file found") ∧
     Sample.build Sample.app_config true
       = Ok (Config_init (defaults Sample.app_config))).
Proof.
  split.
  { intros p Hp. apply list_elem_of_singleton in Hp as ->. reflexivity. }
  split; [reflexivity|]. split; [reflexivity|].
  intros [H _]. discriminate H.
Qed.

Lemma build_last_path_wins_witness :
  paths (Sample.settings None) = ["/etc/app"; "/home/me"] ∧
  _get_filetype (Sample.settings None) = Ok "json" ∧
  Sample.load "K: etc" = Ok {[ "K" := VStr "etc"; "port" := VInt 80 ]} ∧
  Sample.load "K: home" = Ok {[ "K" := VStr "home" ]} ∧
  ∃ c, Sample.build (Sample.settings None) false = Ok c
       ∧ c !! "K" = Some (VStr "home").
Proof.
  split; [reflexivity|]. split; [reflexivity|].
  split; [reflexivity|]. split; [reflexivity|].
  apply (build_last_path_wins Sample.fs Sample.load Sample.load Sample.load
           Sample.ini_parse Sample.section_dict Sample.dotenv_values (Sample.settings None)
           "/etc/app" "/home/me" "json"
           {[ "K" := VStr "etc"; "port" := VInt 80 ]}
           {[ "K" := VStr "home" ]} "K" (VStr "home") false);
    reflexivity.
Defined.

Lemma merge_overlays_witness :
  parse_file Sample.fs Sample.load Sample.load Sample.load Sample.ini_parse Sample.section_dict
    Sample.dotenv_values "json" "/etc/app/settings.json"
  = Ok {[ "K" := VStr "etc"; "port" := VInt 80 ]} ∧
  ∃ c', from_json Sample.fs Sample.load Sample.old_settings
          "/etc/app/settings.json" false = Ok c'
        ∧ overlays {[ "K" := VStr "etc"; "port" := VInt 80 ]}
            Sample.old_settings c'.
Proof.
  split; [reflexivity|].
  apply (proj1 (proj2
           (merge_overlays Sample.fs Sample.load Sample.load Sample.load
              Sample.ini_parse Sample.section_dict Sample.dotenv_values Sample.old_settings
              "/etc/app/settings.json" false
              {[ "K" := VStr "etc"; "port" := VInt 80 ]}))).
  reflexivity.
Defined.

Lemma from_dotenv_missing_file_witness :
  str_truthy "/opt/.env" = true ∧
  exists_ Sample.fs "/opt/.env" = false ∧
  from_dotenv Sample.fs Sample.dotenv_values Sample.old_settings
    (Some "/opt/.env") false = Raise (IOError "File not found") ∧
  from_dotenv Sample.fs Sample.dotenv_values Sample.old_settings
    (Some "/opt/.env") true = Ok Sample.old_settings.
Proof.
  split; [reflexivity|]. split; [reflexivity|].
  apply (from_dotenv_missing_file Sample.fs Sample.dotenv_values
           Sample.old_settings "/opt/.env"); reflexivity.
Defined.

Lemma from_ini_missing_file_witness :
  exists_ Sample.fs "/opt/settings.ini" = false ∧
  from_ini Sample.fs Sample.ini_parse Sample.section_dict Sample.old_settings
    "/opt/settings.ini" false = Ok Sample.old_settings ∧
  from_json Sample.fs Sample.load Sample.old_settings
    "/opt/settings.ini" false
  = Raise (FileNotFoundError "/opt/settings.ini").
Proof.
  split; [reflexivity|].
  destruct (from_ini_missing_file Sample.fs Sample.load Sample.load
              Sample.load Sample.ini_parse Sample.section_dict Sample.old_settings
              "/opt/settings.ini" eq_refl) as (Hini & Hjson & _).
  split; [exact Hini|exact Hjson].
Defined.

(** ** Format resolution *)

(** C1, where the code departs from it: an explicit filetype ["JSON"]
    passes the lower-cased validation of [_get_filetype], which hands
    back the string as it was written, and [build] then looks that
    string up in the format map and raises [UnknownFileType]. *)
Theorem build_upper_case_filetype_raises
    fs json_load toml_load yaml_load ini_parse section_dict dotenv_values
    fname ps d silent :
  in_from_map (lower "JSON") = true ∧
  _get_filetype {| filename := fname; filetype := Some "JSON";
                   paths := ps; defaults := d |} = Ok "JSON" ∧
  build fs json_load toml_load yaml_load ini_parse section_dict dotenv_values
    {| filename := fname; filetype := Some "JSON";
       paths := ps; defaults := d |} silent
  = Raise (UnknownFileType "Unknown file type: JSON").
Proof. repeat split. Qed.

(** The same loader with the filetype written in lower case builds. *)
Example build_lower_case_filetype_merges :
  ∃ c, Sample.build (Sample.settings (Some "json")) false = Ok c
       ∧ c !! "K" = Some (VStr "home").
Proof. eexists. split; reflexivity. Qed.

(** C7, as the code has it: without an explicit filetype, a filename
    [dir ++ base ++ "." ++ ft], where [dir] is empty or ends in a slash,
    the last component [base] has no slash and has a character other
    than a dot, and [ft] is one of the five identifiers as written,
    resolves to [ft]; the filename [".env"] has no extension for
    [splitext], and resolution raises [UnknownFileType]. *)
Theorem get_filetype_from_extension :
  (∀ self dir base ft,
     str_or_none (filetype self) = None →
     filename self = dir +:+ base +:+ "." +:+ ft →
     dir = "" ∨ endswith dir "/" = true →
     rfind base "/" = -1 →
     all_dots base = false →
     in_from_map ft = true →
     _get_filetype self = Ok ft) ∧
  (∀ ps d,
     _get_filetype {| filename := ".env"; filetype := None;
                      paths := ps; defaults := d |}
     = Raise (UnknownFileType
                "Could not find file type from file name: .env")).
Proof.
  split; [|reflexivity].
  intros self dir base ft Hnone Hname Hdir Hbase Hdots Hin.
  unfold _get_filetype. rewrite Hnone, Hname.
  apply in_from_map_inv in Hin.
  rewrite splitext_extension; try done.
  - destruct Hin as [->|[->|[->|[->| ->]]]]; reflexivity.
  - destruct Hin as [->|[->|[->|[->| ->]]]]; reflexivity.
  - destruct Hin as [->|[->|[->|[->| ->]]]]; reflexivity.
Qed.

Lemma get_filetype_from_extension_witness :
  str_or_none (filetype Sample.conf_d_app) = None ∧
  filename Sample.conf_d_app = "conf.d/" +:+ "app" +:+ "." +:+ "toml" ∧
  endswith "conf.d/" "/" = true ∧
  rfind "app" "/" = -1 ∧
  all_dots "app" = false ∧
  in_from_map "toml" = true ∧
  _get_filetype Sample.conf_d_app = Ok "toml".
Proof.
  repeat (split; [reflexivity|]).
  apply (proj1 get_filetype_from_extension
           Sample.conf_d_app "conf.d/" "app" "toml");
    try reflexivity.
  right. reflexivity.
Defined.

(** C7, as stated, fails: the text after the last dot of [".env"] is
    ["env"], one of the five identifiers, yet resolution raises
    [UnknownFileType]. *)
Lemma get_filetype_dot_env :
  filetype Sample.dot_env = None ∧
  str_drop (Z.to_nat (rfind (filename Sample.dot_env) "." + 1))
    (filename Sample.dot_env) = "env" ∧
  in_from_map (lower "env") = true ∧
  _get_filetype Sample.dot_env
  = Raise (UnknownFileType "Could not find file type from file name: .env") ∧
  ¬ (∃ ft, _get_filetype Sample.dot_env = Ok ft).
Proof.
  repeat (split; [reflexivity|]). intros [ft H]. discriminate H.
Qed.

(** ** Format resolution against its description *)

Lemma ascii_lower_lowered c : ascii_lower c = lowered_char c.
Proof. by destruct c as [[] [] [] [] [] [] [] []]. Qed.

Lemma lower_lowered s : lower s = lowered s.
Proof.
  induction s as [|c s IH]; [done|]. simpl.
  by rewrite IH, ascii_lower_lowered.
Qed.

Lemma in_from_map_formats ft : in_from_map ft = true ↔ ft ∈ formats.
Proof.
  split.
  - intros H%in_from_map_inv. unfold formats.
    destruct H as [->|[->|[->|[->| ->]]]]; set_solver.
  - unfold formats. intros H.
    repeat (apply elem_of_cons in H as [->|H]; [reflexivity|]).
    by apply elem_of_nil in H.
Qed.

Lemma rfind_none s c : rfind s c = -1 ↔ has_char s c = false.
Proof.
  induction s as [|a s IH]; simpl; [done|].
  pose proof (rfind_bounds s c) as Hb. unfold ascii_eqb.
  destruct (Z.leb_spec 0 (rfind s c)).
  - split; [lia|]. intros [_ Hs]%orb_false_iff. apply IH in Hs. lia.
  - assert (rfind s c = -1) as Hs by lia. apply IH in Hs. rewrite Hs.
    destruct (bool_decide (a = c)); simpl; split; (done || lia).
Qed.

Lemma rfind_split s c :
  0 ≤ rfind s c →
  ∃ s1 s2, s = s1 +:+ String c s2 ∧
           Z.of_nat (String.length s1) = rfind s c ∧
           has_char s2 c = false.
Proof.
  induction s as [|a s IH]; simpl; [lia|].
  pose proof (rfind_bounds s c) as Hb.
  destruct (Z.leb_spec 0 (rfind s c)) as [Hs|Hs].
  - intros _. destruct (IH Hs) as (s1 & s2 & -> & Hlen & Hno).
    exists (String a s1), s2. split; [done|]. split; [|done].
    simpl String.length. rewrite <- Hlen. lia.
  - unfold ascii_eqb. destruct (bool_decide (a = c)) eqn:Ha; [|lia].
    intros _. apply bool_decide_eq_true in Ha as ->.
    exists "", s. split; [done|]. split; [done|].
    apply rfind_none. lia.
Qed.

Lemma all_dots_false base :
  all_dots base = false ↔ ∃ c, has_char base c = true ∧ c ≠ "."%char.
Proof.
  induction base as [|a base IH]; simpl.
  - split; [done|]. by intros (c & ? & _).
  - unfold ascii_eqb. destruct (bool_decide (a = "."%char)) eqn:Ha; simpl.
    + apply bool_decide_eq_true in Ha as ->. rewrite IH. split.
      * intros (c & Hc & Hne). exists c. by rewrite Hc, orb_true_r.
      * intros (c & Hc & Hne). exists c. split; [|done].
        apply orb_true_iff in Hc as [Hc|Hc]; [|done].
        apply bool_decide_eq_true in Hc. congruence.
    + apply bool_decide_eq_false in Ha. split; [|done].
      intros _. exists a. by rewrite bool_decide_eq_true_2.
Qed.

Lemma endswith_app_char s c : endswith (s +:+ String c "") c = true.
Proof.
  induction s as [|a s IH].
  - simpl. unfold ascii_eqb. by rewrite bool_decide_eq_true_2.
  - rewrite str_app_cons. simpl endswith.
    destruct (s +:+ String c "") eqn:Hs; [by destruct s|done].
Qed.

Lemma splitext_loop_none p base : ∀ tail idx,
  0 ≤ idx →
  str_drop (Z.to_nat idx) p = base +:+ tail →
  all_dots base = true →
  OsPath._splitext_loop (String.length base) p idx
    (idx + Z.of_nat (String.length base)) = None.
Proof.
  induction base as [|a base IH]; intros tail idx Hidx Hdrop Hdots; [done|].
  simpl in Hdots. apply andb_true_iff in Hdots as [Ha Hdots].
  apply bool_decide_eq_true in Ha as ->.
  simpl String.length. simpl OsPath._splitext_loop.
  destruct (Z.ltb_spec idx (idx + Z.of_nat (S (String.length base)))); [|lia].
  unfold str_slice. rewrite Hdrop.
  replace (Z.to_nat (idx + 1 - idx)) with 1%nat by lia.
  rewrite str_app_cons. simpl str_take.
  rewrite bool_decide_eq_true_2 by done. simpl negb. cbv iota.
  replace (idx + Z.of_nat (S (String.length base)))
    with (idx + 1 + Z.of_nat (String.length base)) by lia.
  apply (IH tail); [lia| |done].
  replace (Z.to_nat (idx + 1)) with (S (Z.to_nat idx)) by lia.
  by rewrite str_drop_S, Hdrop.
Qed.

(** An extension in the sense of the description is what [splitext]
    finds, and [splitext] finds nothing else. *)
Lemma extension_of_splitext p ext :
  extension_of p ext → (OsPath.splitext p).2 = "." +:+ ext.
Proof.
  intros (dir & base & -> & Hdir & Hbase & Hdots & Hsep & Hdot).
  rewrite splitext_extension; [done|..].
  - destruct Hdir as [->|[d ->]]; [by left|right].
    apply endswith_app_char.
  - by apply rfind_none.
  - by apply all_dots_false.
  - by apply rfind_none.
  - by apply rfind_none.
Qed.

Lemma splitext_extension_of p a e :
  (OsPath.splitext p).2 = String a e → extension_of p e.
Proof.
  unfold OsPath.splitext.
  pose proof (rfind_bounds p "/") as Hsepb.
  set (sep := rfind p "/") in *. set (dot := rfind p ".") in *.
  destruct (Z.ltb_spec sep dot) as [Hlt|]; [|done].
  assert (0 ≤ dot) as Hdot0 by lia.
  destruct (rfind_split p "." Hdot0) as (s1 & ext & Hp & Hlen1 & Hext).
  fold dot in Hlen1.
  assert (rfind s1 "/" = sep ∧ has_char ext "/" = false)
    as [Hsep1 Hext_sep].
  { pose proof (rfind_bounds (String "." ext) "/") as Hb.
    assert (sep = rfind (s1 +:+ String "." ext) "/") as Hsep
      by (unfold sep; by rewrite <- Hp).
    rewrite rfind_app in Hsep.
    set (r := rfind (String "." ext) "/") in *.
    destruct (Z.leb_spec 0 r); [lia|].
    split; [done|].
    assert (has_char (String "." ext) "/" = false) as Hno
      by (apply rfind_none; fold r; lia).
    by apply orb_false_iff in Hno as [_ ?]. }
  assert (∃ dir base, s1 = dir +:+ base ∧
                      (dir = "" ∨ ∃ d, dir = d +:+ "/") ∧
                      Z.of_nat (String.length dir) = sep + 1 ∧
                      has_char base "/" = false)
    as (dir & base & Hs1 & Hdir & Hlend & Hbase).
  { destruct (Z.leb_spec 0 sep) as [Hs|Hs].
    - rewrite <- Hsep1 in Hs.
      destruct (rfind_split s1 "/" Hs) as (d & base & Hd & Hlen & Hno).
      exists (d +:+ "/"), base. split; [by rewrite str_app_assoc|].
      split; [right; by exists d|]. split; [|done].
      rewrite str_length_app. simpl String.length. lia.
    - exists "", s1. split; [done|]. split; [by left|].
      split; [simpl; lia|]. apply rfind_none. lia. }
  assert (str_drop (Z.to_nat (sep + 1)) p = base +:+ String "." ext)
    as Hdrop.
  { replace (Z.to_nat (sep + 1)) with (String.length dir) by lia.
    by rewrite Hp, Hs1, str_app_assoc, str_drop_app. }
  assert (dot = sep + 1 + Z.of_nat (String.length base)) as Hdot.
  { rewrite <- Hlen1, Hs1, str_length_app. lia. }
  replace (Z.to_nat (dot - (sep + 1))) with (String.length base) by lia.
  rewrite Hdot.
  destruct (all_dots base) eqn:Hdots.
  - rewrite (splitext_loop_none p base (String "." ext)); [done|lia|done..].
  - rewrite (splitext_loop_finds p base (String "." ext)); [|lia|done..].
    cbn zeta. simpl snd.
    replace (Z.to_nat (sep + 1 + Z.of_nat (String.length base)))
      with (String.length s1) by lia.
    assert (str_drop (String.length s1) p = String "." ext) as ->
      by (rewrite Hp; apply str_drop_app).
    intros [= _ <-].
    exists dir, base. repeat split; try done.
    + by rewrite Hp, Hs1, str_app_assoc.
    + by apply all_dots_false.
Qed.

Lemma extension_of_unique p e1 e2 :
  extension_of p e1 → extension_of p e2 → e1 = e2.
Proof.
  intros H1%extension_of_splitext H2%extension_of_splitext.
  rewrite H1 in H2. by injection H2.
Qed.

Lemma str_or_none_None o :
  str_or_none o = None ↔ o = None ∨ o = Some "".
Proof.
  destruct o as [[|a s]|]; simpl; split; try done; try tauto.
  - by intros [?|?].
Qed.

(** The three ways [_get_filetype] goes. *)
Lemma get_filetype_cases self :
  (∃ ft, filetype self = Some ft ∧ ft ≠ "" ∧
         _get_filetype self
         = if in_from_map (lower ft) then Ok ft
           else Raise (UnknownFileType ("Unknown file type: " +:+ ft))) ∨
  (no_filetype self ∧ (¬ ∃ ext, extension_of (filename self) ext) ∧
   _get_filetype self
   = Raise (UnknownFileType
              ("Could not find file type from file name: "
               +:+ filename self))) ∨
  (no_filetype self ∧
   ∃ ext, extension_of (filename self) ext ∧
          _get_filetype self
          = if in_from_map (lower ext) then Ok ext
            else Raise (UnknownFileType ("Unknown file type: " +:+ ext))).
Proof.
  unfold _get_filetype.
  destruct (str_or_none (filetype self)) as [ft|] eqn:Hft.
  - left. exists ft.
    destruct (filetype self) as [[|a s]|]; simpl in Hft; try done.
    injection Hft as <-. split; [done|]. split; [done|].
    simpl. by destruct (in_from_map _).
  - right. apply str_or_none_None in Hft.
    destruct (OsPath.splitext (filename self)).2 as [|a ext] eqn:Hext.
    + left. split; [done|]. split; [|done].
      intros (ext & H%extension_of_splitext). by rewrite Hext in H.
    + right. split; [done|]. exists ext.
      split; [by eapply splitext_extension_of|].
      destruct (Z.ltb_spec (Z.of_nat (String.length (String a ext))) 1)
        as [Hl|_]; [simpl in Hl; lia|].
      simpl. by destruct (in_from_map _).
Qed.

(** C8, as the code has it: [_get_filetype] raises exactly when no
    explicit filetype was given and the filename has no extension in the
    sense of [os.path.splitext], or when the resolved format string (the
    explicit filetype, or else that extension), lower-cased, is not one
    of json, toml, yaml, ini, env; what it raises is [UnknownFileType];
    and the filename ["app.config"] without an explicit filetype raises
    it. *)
Theorem get_filetype_raises_exactly self :
  (raises (_get_filetype self) ↔
     (no_filetype self ∧ ¬ ∃ ext, extension_of (filename self) ext) ∨
     (∃ ft, resolves_to self ft ∧ (lowered ft ∉ formats))) ∧
  (∀ e, _get_filetype self = Raise e → ∃ msg, e = UnknownFileType msg) ∧
  (filename self = "app.config" → no_filetype self →
   _get_filetype self = Raise (UnknownFileType "Unknown file type: config")).
Proof.
  assert (∀ ft, in_from_map (lower ft) = true ↔ lowered ft ∈ formats)
    as Hfmt by (intros ft; by rewrite lower_lowered, in_from_map_formats).
  destruct (get_filetype_cases self)
    as [(ft & Hsome & Hne & ->)|[(Hno & Hext & ->)|(Hno & ext & Hext & ->)]].
  - assert (¬ no_filetype self) as Hgiven
      by (intros [H|H]; rewrite Hsome in H; congruence).
    split; [|split].
    + destruct (in_from_map (lower ft)) eqn:Hin; simpl.
      * split; [done|]. intros [[? _]|(ft' & [[H _]|[? _]] & Hnot)]; try done.
        rewrite Hsome in H. injection H as <-. by apply Hnot, Hfmt.
      * split; [|done]. intros _. right. exists ft. split; [by left|].
        intros H%Hfmt. congruence.
    + intros e. destruct (in_from_map (lower ft)); intros [= <-]. by eexists.
    + done.
  - split; [|split].
    + simpl. split; [|done]. intros _. by left.
    + intros e [= <-]. by eexists.
    + intros Hname _. exfalso. apply Hext. exists "config". rewrite Hname.
      exists "", "app". repeat split; try done; [by left|].
      exists "a"%char. by split.
  - split; [|split].
    + destruct (in_from_map (lower ext)) eqn:Hin; simpl.
      * split; [done|].
        intros [[_ H]|(ft' & [[H Hne]|[_ H]] & Hnot)].
        -- apply H. by exists ext.
        -- destruct Hno as [Hn|Hn]; rewrite Hn in H; [done|].
           by injection H as <-.
        -- rewrite (extension_of_unique _ _ _ H Hext) in Hnot.
           by apply Hnot, Hfmt.
      * split; [|done]. intros _. right. exists ext. split; [by right|].
        intros H%Hfmt. congruence.
    + intros e. destruct (in_from_map (lower ext)); intros [= <-]. by eexists.
    + intros Hname _. rewrite Hname in Hext.
      assert (extension_of "app.config" "config") as Hconfig.
      { exists "", "app". repeat split; try done; [by left|].
        exists "a"%char. by split. }
      by rewrite (extension_of_unique _ _ _ Hext Hconfig).
Qed.

Lemma app_config_resolves : resolves_to Sample.app_config "config".
Proof.
  right. split; [by left|].
  exists "", "app". repeat split; try done; [by left|].
  exists "a"%char. by split.
Qed.

Lemma get_filetype_raises_exactly_witness :
  resolves_to Sample.app_config "config" ∧
  (lowered "config" ∉ formats) ∧
  raises (_get_filetype Sample.app_config) ∧
  resolves_to Sample.upper_yaml "YAML" ∧
  (lowered "YAML" ∈ formats) ∧
  ¬ raises (_get_filetype Sample.upper_yaml) ∧
  _get_filetype Sample.app_config
  = Raise (UnknownFileType "Unknown file type: config").
Proof.
  assert (lowered "config" ∉ formats) as Hconfig.
  { intros H. repeat (apply elem_of_cons in H as [H|H]; [discriminate H|]).
    by apply elem_of_nil in H. }
  assert (lowered "YAML" ∈ formats) as Hyaml by (do 2 right; left).
  split; [exact app_config_resolves|]. split; [exact Hconfig|]. split.
  { apply (proj1 (get_filetype_raises_exactly Sample.app_config)).
    right. exists "config". split; [exact app_config_resolves|exact Hconfig]. }
  split; [by left|]. split; [exact Hyaml|]. split.
  { intros Hraises.
    apply (proj1 (get_filetype_raises_exactly Sample.upper_yaml)) in Hraises.
    destruct Hraises as [[[H|H] _]|(ft & [[H _]|[[H|H] _]] & Hnot)];
      try discriminate H.
    injection H as <-. exact (Hnot Hyaml). }
  apply (proj2 (proj2 (get_filetype_raises_exactly Sample.app_config)));
    [reflexivity|by left].
Defined.

(** C8, as stated, fails when the extension is the text after the last
    dot: ["/etc/app/.toml"] has such an extension, ["toml"], which is
    one of the five identifiers, and no explicit filetype is given, yet
    resolution raises [UnknownFileType]. *)
Lemma get_filetype_dot_toml :
  filetype Sample.dot_toml = None ∧
  0 ≤ rfind (filename Sample.dot_toml) "." ∧
  str_drop (Z.to_nat (rfind (filename Sample.dot_toml) "." + 1))
    (filename Sample.dot_toml) = "toml" ∧
  (lowered "toml" ∈ formats) ∧
  raises (_get_filetype Sample.dot_toml) ∧
  _get_filetype Sample.dot_toml
  = Raise (UnknownFileType
             "Could not find file type from file name: /etc/app/.toml").
Proof.
  split; [reflexivity|]. split; [by vm_compute|].
  split; [reflexivity|]. split; [right; left|].
  split; [exact I|reflexivity].
Qed.

(** * Further properties *)

(** ** The environment *)

Lemma str_startswith_app search k : str_startswith (search +:+ k) search = true.
Proof.
  induction search as [|a search IH]; [done|].
  rewrite str_app_cons. simpl. rewrite IH.
  unfold ascii_eqb. by rewrite bool_decide_eq_true_2.
Qed.

Lemma str_startswith_split key search :
  str_startswith key search = true →
  key = search +:+ str_drop (String.length search) key.
Proof.
  revert key. induction search as [|a search IH]; intros key; [done|].
  destruct key as [|b key]; [done|]. simpl.
  intros [Hb Hrest]%andb_true_iff. apply bool_decide_eq_true in Hb as ->.
  rewrite str_app_cons. f_equal. by apply IH.
Qed.

Lemma from_environment_loop_lookup search items : ∀ self k,
  NoDup items.*1 →
  from_environment_loop search (String.length search) items self !! k
  = match assoc items (search +:+ k) with
    | Some value => Some (VStr value)
    | None => self !! k
    end.
Proof.
  induction items as [|[key value] items IH]; intros self k Hnd; [done|].
  apply NoDup_cons in Hnd as [Hkey Hnd]. simpl in Hkey. simpl.
  destruct (str_startswith key search) eqn:Hstart.
  - rewrite IH by done.
    destruct (decide (key = search +:+ k)) as [->|Hne].
    + rewrite (assoc_None _ _ Hkey), str_drop_app. by rewrite lookup_insert_eq.
    + destruct (assoc items (search +:+ k)); [done|].
      rewrite lookup_insert_ne; [done|].
      intros <-. by apply Hne, str_startswith_split.
  - rewrite IH by done.
    destruct (decide (key = search +:+ k)) as [->|Hne]; [|done].
    by rewrite str_startswith_app in Hstart.
Qed.

Lemma from_environment_loop_origin search items : ∀ self k v,
  from_environment_loop search (String.length search) items self !! k
  = Some v →
  self !! k = Some v ∨
  ∃ value, v = VStr value ∧ (search +:+ k, value) ∈ items.
Proof.
  induction items as [|[key value] items IH]; intros self k v; [by left|].
  simpl. destruct (str_startswith key search) eqn:Hstart.
  - intros [Hins|(value' & -> & Hin)]%IH.
    + apply lookup_insert_Some in Hins as [[<- <-]|[_ Hself]]; [|by left].
      right. exists value. split; [done|].
      rewrite <- (str_startswith_split _ _ Hstart). left.
    + right. exists value'. split; [done|by right].
  - intros [Hself|(value' & -> & Hin)]%IH; [by left|].
    right. exists value'. split; [done|by right].
Qed.

(** X1: when the names of the environment are distinct,
    [from_environment(prefix)] maps a key [k] to the string value of the
    variable named [prefix_k] if there is one, and leaves [k] as it was
    otherwise; variables without the prefix change nothing. *)
Theorem from_environment_lookup environ (self : Config) prefix k :
  NoDup environ.*1 →
  from_environment environ self prefix !! k
  = match assoc environ (prefix +:+ "_" +:+ k) with
    | Some value => Some (VStr value)
    | None => self !! k
    end.
Proof.
  intros Hnd. unfold from_environment. cbn zeta.
  rewrite from_environment_loop_lookup by done.
  by rewrite str_app_assoc.
Qed.

Lemma from_environment_lookup_witness :
  NoDup Demo.environ.*1 ∧
  from_environment Demo.environ ∅ "APP" !! "HOST" = Some (VStr "localhost") ∧
  from_environment Demo.environ ∅ "APP" !! "" = Some (VStr "bare") ∧
  from_environment Demo.environ ∅ "APP" !! "OTHER" = None.
Proof.
  assert (NoDup Demo.environ.*1) as Hnd
    by (apply (bool_decide_unpack _); vm_compute; exact I).
  split; [exact Hnd|].
  split; [|split].
  - exact (from_environment_lookup Demo.environ ∅ "APP" "HOST" Hnd).
  - exact (from_environment_lookup Demo.environ ∅ "APP" "" Hnd).
  - exact (from_environment_lookup Demo.environ ∅ "APP" "OTHER" Hnd).
Defined.

(** X2: every entry of the Config after [from_environment] was in the
    Config before, or is the string value of an environment variable
    named [prefix_key]; values are never converted. *)
Theorem from_environment_origin environ (self : Config) prefix k v :
  from_environment environ self prefix !! k = Some v →
  self !! k = Some v ∨
  ∃ value, v = VStr value ∧ (prefix +:+ "_" +:+ k, value) ∈ environ.
Proof.
  unfold from_environment. cbn zeta.
  intros [?|(value & -> & Hin)]%from_environment_loop_origin; [by left|].
  right. exists value. split; [done|]. by rewrite <- str_app_assoc.
Qed.

Lemma from_environment_origin_witness :
  from_environment Demo.environ Sample.old_settings "APP" !! "PORT"
  = Some (VStr "8080") ∧
  (Sample.old_settings !! "PORT" = Some (VStr "8080") ∨
   ∃ value, VStr "8080" = VStr value
            ∧ ("APP" +:+ "_" +:+ "PORT", value) ∈ Demo.environ).
Proof.
  split; [reflexivity|].
  apply (from_environment_origin Demo.environ Sample.old_settings "APP" "PORT").
  reflexivity.
Defined.

(** ** get and get_recursive *)

(** X3: [get_recursive] on a path of one segment agrees with [get]. *)
Theorem get_recursive_single_is_get (self : Config) name fallback :
  get_recursive self [name] fallback = Ok (get self name fallback).
Proof.
  unfold get_recursive, get. simpl. unfold dict_contains, dict_getitem.
  destruct (self !! name) as [v|] eqn:Hv.
  - rewrite bool_decide_eq_true_2 by (by eexists). done.
  - rewrite bool_decide_eq_false_2 by (by intros [? ?]). done.
Qed.

(** X4: when every segment of the path selects a child, [get_recursive]
    returns the node reached, whatever the fallback. *)
Theorem get_recursive_reaches (self : Config) setting node fallback :
  reaches (VDict self) setting node →
  get_recursive self setting fallback = Ok node.
Proof.
  intros Hreach. unfold get_recursive.
  rewrite <- (app_nil_r setting).
  by rewrite (reaches_descends _ _ _ Hreach).
Qed.

Lemma get_recursive_reaches_witness :
  reaches (VDict Sample.nested) ["a"; "b"] (VList [VInt 10; VInt 20]) ∧
  get_recursive Sample.nested ["a"; "b"] VNone = Ok (VList [VInt 10; VInt 20]).
Proof.
  split; [exact reaches_nested_b|].
  exact (get_recursive_reaches Sample.nested ["a"; "b"] _ VNone
           reaches_nested_b).
Defined.

Lemma reaches_cons_key (m : dict) path child rest v :
  m !! path = Some child →
  reaches child rest v →
  reaches (VDict m) (path :: rest) v.
Proof.
  intros Hm. induction 1 as [|pre p m' c _ IH Hk|pre p l i c _ IH Hi Hc].
  - apply (reaches_key _ [] path m child); [constructor|done].
  - by apply (reaches_key _ (path :: pre) p m' c).
  - by apply (reaches_index _ (path :: pre) p l i c).
Qed.

Lemma reaches_cons_index l path i child rest v :
  int_of_str path = Ok i →
  list_getitem l i = Ok child →
  reaches child rest v →
  reaches (VList l) (path :: rest) v.
Proof.
  intros Hi0 Hc0. induction 1 as [|pre p m' c _ IH Hk|pre p l' i' c _ IH Hi Hc].
  - by apply (reaches_index _ [] path l i child); [constructor|..].
  - by apply (reaches_key _ (path :: pre) p m' c).
  - by apply (reaches_index _ (path :: pre) p l' i' c).
Qed.

Lemma get_recursive_from_origin setting : ∀ data fallback v,
  get_recursive_from data setting fallback = Ok v →
  v = fallback ∨ reaches data setting v.
Proof.
  induction setting as [|path rest IH]; intros data fallback v.
  - intros [= <-]. right. constructor.
  - destruct data as [| | | | |l|m]; simpl; try (intros [= <-]; by left).
    + unfold convert_path. simpl.
      destruct (int_of_str path) as [i|] eqn:Hi; [|intros [= <-]; by left].
      destruct (list_getitem l i) as [child|] eqn:Hc; [|intros [= <-]; by left].
      intros [?|Hr]%IH; [by left|]. right. by eapply reaches_cons_index.
    + unfold dict_contains, dict_getitem.
      destruct (m !! path) as [child|] eqn:Hm.
      * rewrite bool_decide_eq_true_2 by (by eexists). simpl.
        intros [?|Hr]%IH; [by left|]. right. by eapply reaches_cons_key.
      * rewrite bool_decide_eq_false_2 by (by intros [? ?]). simpl.
        intros [= <-]. by left.
Qed.

(** X5: what [get_recursive] returns is the fallback or the node that
    the whole path reaches; it never returns a node from part of the
    path. *)
Theorem get_recursive_origin (self : Config) setting fallback v :
  get_recursive self setting fallback = Ok v →
  v = fallback ∨ reaches (VDict self) setting v.
Proof. apply get_recursive_from_origin. Qed.

Lemma get_recursive_origin_witness :
  get_recursive Sample.nested ["a"; "b"; "1"] VNone = Ok (VInt 20) ∧
  (VInt 20 = VNone ∨ reaches (VDict Sample.nested) ["a"; "b"; "1"] (VInt 20)).
Proof.
  split; [reflexivity|].
  apply (get_recursive_origin Sample.nested ["a"; "b"; "1"] VNone (VInt 20)).
  reflexivity.
Defined.

Lemma dict_update_twice (c M : dict) :
  dict_update (dict_update c M) M = dict_update c M.
Proof.
  unfold dict_update. by rewrite (assoc_L (∪)), (idemp_L (∪)).
Qed.

Section Searching.

Context (fs : filesystem)
        (json_load toml_load yaml_load : string → result dict)
        (ini_parse : string → result ConfigParser)
        (section_dict : ConfigParser → string → result (gmap string string))
        (dotenv_values : option string → result dict).

Local Abbreviation build' :=
  (build fs json_load toml_load yaml_load ini_parse section_dict dotenv_values).
Local Abbreviation getattr' :=
  (getattr fs json_load toml_load yaml_load ini_parse section_dict dotenv_values).
Local Abbreviation parse_file' :=
  (parse_file fs json_load toml_load yaml_load ini_parse section_dict dotenv_values).

(** [build] with the format resolved and the loader looked up. *)
Lemma build_resolved self ft silent :
  _get_filetype self = Ok ft →
  in_from_map ft = true →
  ∃ name loader,
    _from_map !! ft = Some name ∧ getattr' name = Ok loader ∧
    build' self silent
    = build_loop fs loader (filename self) (paths self)
        (Config_init (defaults self)) false
      ≫= λ r, if negb r.2 && negb silent
              then Raise (NoConfigFileFound "No configration file found")
              else Ok r.1.
Proof.
  intros Hft Hin.
  destruct (dispatch_defined fs json_load toml_load yaml_load ini_parse section_dict
              dotenv_values ft Hin) as (name & loader & Hname & Hloader).
  exists name, loader. split; [done|]. split; [done|].
  unfold build. rewrite Hft. simpl. rewrite Hin, Hname. simpl.
  by rewrite Hloader.
Qed.

(** Replacing the search paths by others over which the loop of [build]
    runs alike does not change [build]. *)
Lemma build_with_paths self ps silent :
  (∀ ft name loader c,
     _from_map !! ft = Some name → getattr' name = Ok loader →
     build_loop fs loader (filename self) ps c false
     = build_loop fs loader (filename self) (paths self) c false) →
  build' (with_paths self ps) silent = build' self silent.
Proof.
  intros Hloop. unfold build.
  change (_get_filetype (with_paths self ps)) with (_get_filetype self).
  destruct (_get_filetype self) as [ft|e]; simpl; [|done].
  destruct (in_from_map ft) eqn:Hin; simpl; [|done].
  destruct (dispatch_defined fs json_load toml_load yaml_load ini_parse section_dict
              dotenv_values ft Hin) as (name & loader & Hname & Hloader).
  rewrite Hname. simpl. rewrite Hloader. simpl.
  by rewrite (Hloop ft name loader _ Hname Hloader).
Qed.

Lemma build_loop_app loader fname ps qs : ∀ c found,
  build_loop fs loader fname (ps ++ qs) c found
  = build_loop fs loader fname ps c found
    ≫= λ r, build_loop fs loader fname qs r.1 r.2.
Proof.
  induction ps as [|p ps IH]; intros c found; [done|].
  simpl. destruct (exists_ fs (OsPath.join p fname)); simpl; [|apply IH].
  destruct (loader c (OsPath.join p fname)); simpl; [apply IH|done].
Qed.

Lemma build_loop_filter loader fname ps : ∀ c found,
  build_loop fs loader fname
    (filter (λ p, exists_ fs (OsPath.join p fname) = true) ps) c found
  = build_loop fs loader fname ps c found.
Proof.
  induction ps as [|p ps IH]; intros c found; [done|].
  destruct (exists_ fs (OsPath.join p fname)) eqn:Hex.
  - rewrite filter_cons_True by done. simpl. rewrite Hex. simpl.
    destruct (loader c (OsPath.join p fname)); simpl; [apply IH|done].
  - rewrite filter_cons_False by (by rewrite Hex). simpl. rewrite Hex. simpl.
    apply IH.
Qed.

Lemma build_loop_flag_kept loader fname ps : ∀ c r,
  build_loop fs loader fname ps c true = Ok r → r.2 = true.
Proof.
  induction ps as [|p ps IH]; intros c r; [by intros [= <-]|].
  simpl. destruct (exists_ fs (OsPath.join p fname)); simpl; [|apply IH].
  destruct (loader c (OsPath.join p fname)); simpl; [apply IH|done].
Qed.

Lemma build_loop_flag_found loader fname ps : ∀ c found r p,
  p ∈ ps → exists_ fs (OsPath.join p fname) = true →
  build_loop fs loader fname ps c found = Ok r → r.2 = true.
Proof.
  induction ps as [|q ps IH]; intros c found r p Hp Hex.
  { by apply elem_of_nil in Hp. }
  simpl. destruct (exists_ fs (OsPath.join q fname)) eqn:Hq; simpl.
  - destruct (loader c (OsPath.join q fname)); simpl; [|done].
    apply build_loop_flag_kept.
  - apply elem_of_cons in Hp as [->|Hp]; [congruence|]. by eapply IH.
Qed.

(** One turn of the loop of [build], for a loader of the format map. *)
Lemma build_loop_cons ft name loader fname p ps c found :
  _from_map !! ft = Some name → getattr' name = Ok loader →
  build_loop fs loader fname (p :: ps) c found
  = if exists_ fs (OsPath.join p fname)
    then parse_file' ft (OsPath.join p fname)
         ≫= λ m, build_loop fs loader fname ps (dict_update c m) true
    else build_loop fs loader fname ps c found.
Proof.
  intros Hname Hloader. simpl.
  destruct (exists_ fs (OsPath.join p fname)) eqn:Hex; simpl; [|done].
  rewrite (loader_merges fs json_load toml_load yaml_load ini_parse section_dict
             dotenv_values ft name loader c _ Hname Hloader Hex).
  by destruct (parse_file' ft (OsPath.join p fname)).
Qed.

Lemma build_loop_unassigned ft name loader fname K ps : ∀ c found r,
  _from_map !! ft = Some name → getattr' name = Ok loader →
  (∀ p M, p ∈ ps → exists_ fs (OsPath.join p fname) = true →
          parse_file' ft (OsPath.join p fname) = Ok M → M !! K = None) →
  build_loop fs loader fname ps c found = Ok r →
  r.1 !! K = c !! K.
Proof.
  induction ps as [|p ps IH]; intros c found r Hname Hloader Hnone.
  { by intros [= <-]. }
  rewrite (build_loop_cons ft name loader) by done.
  destruct (exists_ fs (OsPath.join p fname)) eqn:Hex.
  - destruct (parse_file' ft (OsPath.join p fname)) as [M|] eqn:HM; [|done].
    simpl. intros Hr. rewrite (IH _ _ _ Hname Hloader) with (2 := Hr).
    + unfold dict_update. apply lookup_union_r.
      apply (Hnone p M); [left|done..].
    + intros q M' Hq. apply Hnone. by right.
  - apply IH; [done..|]. intros q M' Hq. apply Hnone. by right.
Qed.

Lemma build_loop_origin ft name loader fname K v ps : ∀ c found r,
  _from_map !! ft = Some name → getattr' name = Ok loader →
  build_loop fs loader fname ps c found = Ok r →
  r.1 !! K = Some v →
  c !! K = Some v ∨
  ∃ p M, p ∈ ps ∧ exists_ fs (OsPath.join p fname) = true ∧
         parse_file' ft (OsPath.join p fname) = Ok M ∧ M !! K = Some v.
Proof.
  induction ps as [|p ps IH]; intros c found r Hname Hloader.
  { intros [= <-]. by left. }
  rewrite (build_loop_cons ft name loader) by done.
  destruct (exists_ fs (OsPath.join p fname)) eqn:Hex.
  - destruct (parse_file' ft (OsPath.join p fname)) as [M|] eqn:HM; [|done].
    simpl. intros Hr HK.
    destruct (IH _ _ _ Hname Hloader Hr HK) as [Hc|(q & M' & Hq & ?)].
    + unfold dict_update in Hc. apply lookup_union_Some_raw in Hc as [HM'|[_ Hc]].
      * right. exists p, M. split; [left|done].
      * by left.
    + right. exists q, M'. split; [by right|done].
  - intros Hr HK.
    destruct (IH _ _ _ Hname Hloader Hr HK) as [Hc|(q & M' & Hq & ?)];
      [by left|].
    right. exists q, M'. split; [by right|done].
Qed.

Lemma build_loop_parsed ft name loader fname ps : ∀ c found,
  _from_map !! ft = Some name → getattr' name = Ok loader →
  (∀ p, p ∈ ps → exists_ fs (OsPath.join p fname) = true →
        ∃ M, parse_file' ft (OsPath.join p fname) = Ok M) →
  ∃ r, build_loop fs loader fname ps c found = Ok r.
Proof.
  induction ps as [|p ps IH]; intros c found Hname Hloader Hok.
  { by eexists. }
  rewrite (build_loop_cons ft name loader) by done.
  destruct (exists_ fs (OsPath.join p fname)) eqn:Hex.
  - destruct (Hok p) as [M ->]; [left|done|]. simpl.
    apply IH; [done..|]. intros q Hq. apply Hok. by right.
  - apply IH; [done..|]. intros q Hq. apply Hok. by right.
Qed.

Lemma build_Ok_loop self ft silent c :
  _get_filetype self = Ok ft →
  build' self silent = Ok c →
  ∃ name loader found,
    _from_map !! ft = Some name ∧ getattr' name = Ok loader ∧
    build_loop fs loader (filename self) (paths self)
      (Config_init (defaults self)) false = Ok (c, found).
Proof.
  intros Hft Hbuild.
  destruct (in_from_map ft) eqn:Hin.
  - destruct (build_resolved self ft silent Hft Hin)
      as (name & loader & Hname & Hloader & Heq).
    rewrite Heq in Hbuild. exists name, loader.
    destruct (build_loop _ _ _ _ _ _) as [[c' found]|]; [|done].
    simpl in Hbuild. exists found. split; [done|]. split; [done|].
    destruct (negb found && negb silent); [done|]. by injection Hbuild as ->.
  - unfold build in Hbuild. rewrite Hft in Hbuild. simpl in Hbuild.
    by rewrite Hin in Hbuild.
Qed.

(** X6: search paths that do not hold the file play no part: [build]
    gives the same result, or raises the same error, with them removed. *)
Theorem build_skips_missing_paths self silent :
  build' (with_paths self
            (filter (λ p, exists_ fs (OsPath.join p (filename self)) = true)
                    (paths self))) silent
  = build' self silent.
Proof.
  apply build_with_paths. intros ft name loader c _ _.
  apply build_loop_filter.
Qed.

(** X7: once a search path holds the file, [silent] makes no
    difference to [build]. *)
Theorem build_found_ignores_silent self p :
  p ∈ paths self →
  exists_ fs (OsPath.join p (filename self)) = true →
  build' self true = build' self false.
Proof.
  intros Hp Hex. unfold build.
  destruct (_get_filetype self) as [ft|e]; simpl; [|done].
  destruct (in_from_map ft); simpl; [|done].
  destruct (_from_map !! ft) as [name|]; simpl; [|done].
  destruct (getattr' name) as [loader|]; simpl; [|done].
  destruct (build_loop _ _ _ _ _ _) as [r|] eqn:Hr; simpl; [|done].
  by rewrite (build_loop_flag_found _ _ _ _ _ _ _ Hp Hex Hr).
Qed.

Lemma build_loop_twice ft name loader fname P c found :
  _from_map !! ft = Some name → getattr' name = Ok loader →
  build_loop fs loader fname [P; P] c found
  = build_loop fs loader fname [P] c found.
Proof.
  intros Hname Hloader. simpl.
  destruct (exists_ fs (OsPath.join P fname)) eqn:Hex; simpl; [|done].
  rewrite (loader_merges fs json_load toml_load yaml_load ini_parse section_dict
             dotenv_values ft name loader c _ Hname Hloader Hex).
  destruct (parse_file' ft (OsPath.join P fname)) as [M|] eqn:HM; simpl;
    [|done].
  rewrite (loader_merges fs json_load toml_load yaml_load ini_parse section_dict
             dotenv_values ft name loader _ _ Hname Hloader Hex), HM.
  simpl. by rewrite dict_update_twice.
Qed.

(** X8: registering the same folder twice in a row with
    [add_folder_path] gives the same [build] as registering it once. *)
Theorem build_repeated_path self P silent :
  build' (add_folder_path (add_folder_path self P) P) silent
  = build' (add_folder_path self P) silent.
Proof.
  apply (build_with_paths (add_folder_path self P)
           ((paths self ++ [P]) ++ [P])).
  intros ft name loader c Hname Hloader. simpl paths. simpl filename.
  rewrite <- (assoc_L (++)). rewrite !build_loop_app.
  destruct (build_loop fs loader (filename self) (paths self) c false)
    as [[c1 found]|]; [|done].
  rewrite !result_bind_Ok. cbn [fst snd].
  by apply (build_loop_twice ft name).
Qed.

(** X9: in the Config that [build] returns, a key has the value given by
    the last search path whose file assigns it: the file of [P] assigns
    [K], and no found file of a later path does. *)
Theorem build_last_assignment_wins self ft pre P post M K v silent c :
  _get_filetype self = Ok ft →
  paths self = pre ++ P :: post →
  exists_ fs (OsPath.join P (filename self)) = true →
  parse_file' ft (OsPath.join P (filename self)) = Ok M →
  M !! K = Some v →
  (∀ q M', q ∈ post → exists_ fs (OsPath.join q (filename self)) = true →
           parse_file' ft (OsPath.join q (filename self)) = Ok M' →
           M' !! K = None) →
  build' self silent = Ok c →
  c !! K = Some v.
Proof.
  intros Hft Hpaths Hex HM HK Hpost Hbuild.
  destruct (build_Ok_loop self ft silent c Hft Hbuild)
    as (name & loader & found & Hname & Hloader & Hloop).
  rewrite Hpaths, build_loop_app in Hloop.
  destruct (build_loop fs loader (filename self) pre _ false)
    as [[c1 found1]|]; [|done].
  rewrite result_bind_Ok in Hloop. cbn [fst snd] in Hloop.
  rewrite (build_loop_cons ft name loader) in Hloop by done.
  rewrite Hex, HM, result_bind_Ok in Hloop.
  pose proof (build_loop_unassigned ft name loader _ K post _ _ _
                Hname Hloader Hpost Hloop) as Hc.
  simpl in Hc. rewrite Hc.
  unfold dict_update. by apply lookup_union_Some_l.
Qed.

(** X10: a key that no found file assigns has, in the Config that
    [build] returns, exactly what the defaults give it. *)
Theorem build_keeps_unassigned_defaults self ft K silent c :
  _get_filetype self = Ok ft →
  (∀ p M, p ∈ paths self →
          exists_ fs (OsPath.join p (filename self)) = true →
          parse_file' ft (OsPath.join p (filename self)) = Ok M →
          M !! K = None) →
  build' self silent = Ok c →
  c !! K = Config_init (defaults self) !! K.
Proof.
  intros Hft Hnone Hbuild.
  destruct (build_Ok_loop self ft silent c Hft Hbuild)
    as (name & loader & found & Hname & Hloader & Hloop).
  exact (build_loop_unassigned ft name loader _ K _ _ _ _
           Hname Hloader Hnone Hloop).
Qed.

(** X11: every entry of the Config that [build] returns comes from the
    defaults or from the file of a registered search path. *)
Theorem build_entries_origin self ft K v silent c :
  _get_filetype self = Ok ft →
  build' self silent = Ok c →
  c !! K = Some v →
  Config_init (defaults self) !! K = Some v ∨
  ∃ p M, p ∈ paths self ∧
         exists_ fs (OsPath.join p (filename self)) = true ∧
         parse_file' ft (OsPath.join p (filename self)) = Ok M ∧
         M !! K = Some v.
Proof.
  intros Hft Hbuild HK.
  destruct (build_Ok_loop self ft silent c Hft Hbuild)
    as (name & loader & found & Hname & Hloader & Hloop).
  exact (build_loop_origin ft name loader _ K v _ _ _ _
           Hname Hloader Hloop HK).
Qed.

(** X12: a found file that does not parse makes [build] raise the
    error of the parser, also when [silent] is set, when the found files
    of the earlier paths parse. *)
Theorem build_parse_error_propagates self ft pre P post e silent :
  _get_filetype self = Ok ft →
  in_from_map ft = true →
  paths self = pre ++ P :: post →
  (∀ q, q ∈ pre → exists_ fs (OsPath.join q (filename self)) = true →
        ∃ M, parse_file' ft (OsPath.join q (filename self)) = Ok M) →
  exists_ fs (OsPath.join P (filename self)) = true →
  parse_file' ft (OsPath.join P (filename self)) = Raise e →
  build' self silent = Raise e.
Proof.
  intros Hft Hin Hpaths Hpre Hex He.
  destruct (build_resolved self ft silent Hft Hin)
    as (name & loader & Hname & Hloader & ->).
  rewrite Hpaths, build_loop_app.
  destruct (build_loop_parsed ft name loader (filename self) pre
              (Config_init (defaults self)) false Hname Hloader Hpre)
    as [r ->].
  rewrite result_bind_Ok.
  rewrite (build_loop_cons ft name loader) by done.
  by rewrite Hex, He.
Qed.

End Searching.

Lemma build_found_ignores_silent_witness :
  "/etc/app" ∈ paths (Demo.loader ["/opt"; "/etc/app"]) ∧
  exists_ Demo.fs (OsPath.join "/etc/app" "settings.json") = true ∧
  Demo.build (Demo.loader ["/opt"; "/etc/app"]) true
  = Demo.build (Demo.loader ["/opt"; "/etc/app"]) false.
Proof.
  assert ("/etc/app" ∈ paths (Demo.loader ["/opt"; "/etc/app"])) as Hin
    by (right; left).
  split; [exact Hin|]. split; [reflexivity|].
  exact (build_found_ignores_silent Demo.fs Sample.load Sample.load
           Sample.load Sample.ini_parse Sample.section_dict Demo.dotenv_values
           (Demo.loader ["/opt"; "/etc/app"]) "/etc/app" Hin eq_refl).
Defined.

Lemma demo_home_assigns_no_port q M' :
  q ∈ ["/home/me"] →
  exists_ Demo.fs (OsPath.join q "settings.json") = true →
  Demo.parse_file "json" (OsPath.join q "settings.json") = Ok M' →
  M' !! "port" = None.
Proof.
  intros ->%list_elem_of_singleton _ HM.
  vm_compute in HM. by injection HM as <-.
Qed.

Lemma build_last_assignment_wins_witness :
  paths (Demo.loader ["/etc/app"; "/home/me"]) = [] ++ "/etc/app" :: ["/home/me"] ∧
  Demo.parse_file "json" (OsPath.join "/etc/app" "settings.json")
  = Ok {[ "K" := VStr "etc"; "port" := VInt 80 ]} ∧
  Demo.parse_file "json" (OsPath.join "/home/me" "settings.json")
  = Ok {[ "K" := VStr "home" ]} ∧
  Demo.build (Demo.loader ["/etc/app"; "/home/me"]) false
  = Ok {[ "K" := VStr "home"; "port" := VInt 80; "debug" := VBool false ]} ∧
  ({[ "K" := VStr "home"; "port" := VInt 80; "debug" := VBool false ]} : dict)
    !! "port" = Some (VInt 80).
Proof.
  split; [reflexivity|]. split; [reflexivity|]. split; [reflexivity|].
  split; [reflexivity|].
  exact (build_last_assignment_wins Demo.fs Sample.load Sample.load
           Sample.load Sample.ini_parse Sample.section_dict Demo.dotenv_values
           (Demo.loader ["/etc/app"; "/home/me"]) "json"
           [] "/etc/app" ["/home/me"]
           {[ "K" := VStr "etc"; "port" := VInt 80 ]} "port" (VInt 80) false
           {[ "K" := VStr "home"; "port" := VInt 80; "debug" := VBool false ]}
           eq_refl eq_refl eq_refl eq_refl eq_refl
           demo_home_assigns_no_port eq_refl).
Defined.

Lemma demo_files_assign_no_debug p M :
  p ∈ ["/etc/app"; "/home/me"] →
  exists_ Demo.fs (OsPath.join p "settings.json") = true →
  Demo.parse_file "json" (OsPath.join p "settings.json") = Ok M →
  M !! "debug" = None.
Proof.
  intros Hp _ HM.
  apply elem_of_cons in Hp as [->|Hp];
    [|apply list_elem_of_singleton in Hp as ->];
    vm_compute in HM; by injection HM as <-.
Qed.

Lemma build_keeps_unassigned_defaults_witness :
  Demo.build (Demo.loader ["/etc/app"; "/home/me"]) false
  = Ok {[ "K" := VStr "home"; "port" := VInt 80; "debug" := VBool false ]} ∧
  ({[ "K" := VStr "home"; "port" := VInt 80; "debug" := VBool false ]} : dict)
    !! "debug"
  = Config_init (defaults (Demo.loader ["/etc/app"; "/home/me"])) !! "debug".
Proof.
  split; [reflexivity|].
  exact (build_keeps_unassigned_defaults Demo.fs Sample.load Sample.load
           Sample.load Sample.ini_parse Sample.section_dict Demo.dotenv_values
           (Demo.loader ["/etc/app"; "/home/me"]) "json" "debug" false
           {[ "K" := VStr "home"; "port" := VInt 80; "debug" := VBool false ]}
           eq_refl demo_files_assign_no_debug eq_refl).
Defined.

Lemma build_entries_origin_witness :
  Demo.build (Demo.loader ["/etc/app"; "/home/me"]) false
  = Ok {[ "K" := VStr "home"; "port" := VInt 80; "debug" := VBool false ]} ∧
  (Config_init (defaults (Demo.loader ["/etc/app"; "/home/me"])) !! "port"
   = Some (VInt 80) ∨
   ∃ p M, p ∈ paths (Demo.loader ["/etc/app"; "/home/me"]) ∧
          exists_ Demo.fs (OsPath.join p "settings.json") = true ∧
          Demo.parse_file "json" (OsPath.join p "settings.json") = Ok M ∧
          M !! "port" = Some (VInt 80)).
Proof.
  split; [reflexivity|].
  exact (build_entries_origin Demo.fs Sample.load Sample.load
           Sample.load Sample.ini_parse Sample.section_dict Demo.dotenv_values
           (Demo.loader ["/etc/app"; "/home/me"]) "json" "port" (VInt 80)
           false
           {[ "K" := VStr "home"; "port" := VInt 80; "debug" := VBool false ]}
           eq_refl eq_refl eq_refl).
Defined.

Lemma demo_etc_parses q :
  q ∈ ["/etc/app"] →
  exists_ Demo.fs (OsPath.join q "settings.json") = true →
  ∃ M, Demo.parse_file "json" (OsPath.join q "settings.json") = Ok M.
Proof. intros ->%list_elem_of_singleton _. by eexists. Qed.

Lemma build_parse_error_propagates_witness :
  paths (Demo.loader ["/etc/app"; "/srv"; "/home/me"])
  = ["/etc/app"] ++ "/srv" :: ["/home/me"] ∧
  Demo.parse_file "json" (OsPath.join "/srv" "settings.json")
  = Raise (ParserError "{oops") ∧
  Demo.build (Demo.loader ["/etc/app"; "/srv"; "/home/me"]) true
  = Raise (ParserError "{oops").
Proof.
  split; [reflexivity|]. split; [reflexivity|].
  exact (build_parse_error_propagates Demo.fs Sample.load Sample.load
           Sample.load Sample.ini_parse Sample.section_dict Demo.dotenv_values
           (Demo.loader ["/etc/app"; "/srv"; "/home/me"]) "json"
           ["/etc/app"] "/srv" ["/home/me"] (ParserError "{oops") true
           eq_refl eq_refl eq_refl demo_etc_parses eq_refl eq_refl).
Defined.

Section Merging.

Context (fs : filesystem)
        (json_load toml_load yaml_load : string → result dict)
        (ini_parse : string → result ConfigParser)
        (section_dict : ConfigParser → string → result (gmap string string))
        (dotenv_values : option string → result dict).

Lemma from_file_twice self path load silent c :
  from_file fs self path load silent = Ok c →
  from_file fs c path load silent = Ok c.
Proof.
  unfold from_file.
  destruct (silent && negb (exists_ fs path)); [by intros [= ->]|].
  destruct (open fs path) as [text|]; simpl; [|done].
  destruct (load text) as [M|]; simpl; [|done].
  intros [= <-]. by rewrite dict_update_twice.
Qed.

(** X13: merging the same source twice is the same as merging it once,
    for [from_file] and every per-format method. *)
Theorem merge_twice self path silent c :
  (∀ load, from_file fs self path load silent = Ok c →
           from_file fs c path load silent = Ok c) ∧
  (from_json fs json_load self path silent = Ok c →
   from_json fs json_load c path silent = Ok c) ∧
  (from_toml fs toml_load self path silent = Ok c →
   from_toml fs toml_load c path silent = Ok c) ∧
  (from_yaml fs yaml_load self path silent = Ok c →
   from_yaml fs yaml_load c path silent = Ok c) ∧
  (from_ini fs ini_parse section_dict self path silent = Ok c →
   from_ini fs ini_parse section_dict c path silent = Ok c) ∧
  (∀ filename,
     from_dotenv fs dotenv_values self filename silent = Ok c →
     from_dotenv fs dotenv_values c filename silent = Ok c).
Proof.
  split; [intros load; apply from_file_twice|].
  split; [|split; [|split; [|split]]].
  - unfold from_json.
    destruct (from_file fs self path json_load silent) as [c'|] eqn:Hc;
      simpl; [|done].
    intros [= <-]. by rewrite (from_file_twice _ _ _ _ _ Hc).
  - unfold from_toml.
    destruct (from_file fs self path toml_load silent) as [c'|] eqn:Hc;
      simpl; [|done].
    intros [= <-]. by rewrite (from_file_twice _ _ _ _ _ Hc).
  - unfold from_yaml.
    destruct (from_file fs self path yaml_load silent) as [c'|] eqn:Hc;
      simpl; [|done].
    intros [= <-]. by rewrite (from_file_twice _ _ _ _ _ Hc).
  - rewrite !from_ini_merges.
    destruct (ConfigParser_read fs ini_parse path) as [config|]; [|done].
    rewrite !result_bind_Ok.
    destruct (ini_mapping section_dict config) as [m|]; [|done].
    rewrite !result_bind_Ok. intros [= <-]. by rewrite dict_update_twice.
  - intros filename. unfold from_dotenv.
    destruct (match str_or_none filename with
              | Some f => negb (exists_ fs f)
              | None => false
              end).
    + destruct silent; [by intros [= ->]|done].
    + destruct (dotenv_values filename) as [M|]; simpl; [|done].
      intros [= <-]. by rewrite dict_update_twice.
Qed.

(** X14: [silent] does not cover parser errors: on a file that opens
    and does not parse, [from_file], [from_ini] and [from_dotenv] raise
    the error of the parser whatever [silent] is. *)
Theorem parse_error_not_silenced self path text e silent :
  open fs path = Ok text →
  (∀ load, load text = Raise e →
           from_file fs self path load silent = Raise e) ∧
  (ini_parse text = Raise e →
   from_ini fs ini_parse section_dict self path silent = Raise e) ∧
  (dotenv_values (Some path) = Raise e →
   from_dotenv fs dotenv_values self (Some path) silent = Raise e).
Proof.
  intros Hopen.
  pose proof (open_Ok_exists fs path text Hopen) as Hex.
  split; [|split].
  - intros load He. unfold from_file.
    by rewrite Hex, andb_false_r, Hopen; simpl; rewrite He.
  - intros He. rewrite from_ini_merges. unfold ConfigParser_read.
    by rewrite Hopen, He.
  - intros He. rewrite from_dotenv_merges; [by rewrite He|].
    intros f Hf. simpl in Hf. destruct (str_truthy path); by simplify_eq.
Qed.

(** X15: on a path that is a directory, [from_file] and [from_json]
    raise [IsADirectoryError] whatever [silent] is, and [from_ini]
    returns the Config unchanged. *)
Theorem merge_from_directory self path silent :
  fs path = Some Directory →
  (∀ load, from_file fs self path load silent
           = Raise (IsADirectoryError path)) ∧
  from_json fs json_load self path silent = Raise (IsADirectoryError path) ∧
  from_ini fs ini_parse section_dict self path silent = Ok self.
Proof.
  intros Hdir.
  assert (exists_ fs path = true) as Hex by (unfold exists_; by rewrite Hdir).
  assert (open fs path = Raise (IsADirectoryError path)) as Hopen
    by (unfold open; by rewrite Hdir).
  assert (∀ load, from_file fs self path load silent
                  = Raise (IsADirectoryError path)) as Hfile.
  { intros load. unfold from_file. by rewrite Hex, andb_false_r, Hopen. }
  split; [exact Hfile|]. split.
  - unfold from_json. by rewrite Hfile.
  - rewrite from_ini_merges. unfold ConfigParser_read. rewrite Hopen. simpl.
    unfold dict_update. by rewrite (left_id_L ∅ (∪)).
Qed.

Lemma ini_items_section config names : ∀ items section,
  ini_items section_dict config names = Ok items →
  section ∈ names →
  ∃ d, section_dict config section = Ok d.
Proof.
  induction names as [|s names IH]; intros items section Hitems Hin.
  { by apply elem_of_nil in Hin. }
  simpl in Hitems.
  destruct (section_dict config s) as [d|] eqn:Hd; [|done].
  rewrite result_bind_Ok in Hitems.
  destruct (ini_items section_dict config names) as [items'|] eqn:Hi;
    [|done].
  apply elem_of_cons in Hin as [->|Hin]; [by exists d|].
  by apply (IH items').
Qed.

Lemma ini_items_error config pre s post e :
  (∀ q, q ∈ pre → ∃ d, section_dict config q = Ok d) →
  section_dict config s = Raise e →
  ini_items section_dict config (pre ++ s :: post) = Raise e.
Proof.
  induction pre as [|q pre IH]; intros Hpre He; simpl.
  - by rewrite He.
  - destruct (Hpre q) as [d ->]; [left|]. rewrite result_bind_Ok.
    rewrite IH; [done| |done]. intros q' Hq'. apply Hpre. by right.
Qed.

(** X16: when [from_ini] returns on a file that parses, the Config holds
    under each section name the dict of strings that configparser gives
    for that section, in place of whatever it held under that name. *)
Theorem from_ini_section_value self path text config section silent c' :
  open fs path = Ok text →
  ini_parse text = Ok config →
  section ∈ sections config →
  from_ini fs ini_parse section_dict self path silent = Ok c' →
  ∃ d, section_dict config section = Ok d ∧
       c' !! section = Some (VDict (VStr <$> d)).
Proof.
  intros Hopen Hparse Hin. rewrite from_ini_merges.
  unfold ConfigParser_read. rewrite Hopen, Hparse, result_bind_Ok.
  unfold ini_mapping.
  destruct (ini_items section_dict config (sections config)) as [items|]
    eqn:Hitems; [|done].
  rewrite !result_bind_Ok. intros [= <-].
  destruct (ini_items_section config _ items section Hitems Hin) as [d Hd].
  exists d. split; [done|]. unfold dict_update.
  apply lookup_union_Some_l.
  rewrite (ini_items_lookup section_dict config _ items section Hitems).
  by rewrite decide_True, Hd by done.
Qed.

(** X18: a section whose dict cannot be built makes [from_ini] raise the
    error of the library, whatever [silent] is, when the dicts of the
    sections before it can be built. *)
Theorem from_ini_section_error self path text config pre section post e
    silent :
  open fs path = Ok text →
  ini_parse text = Ok config →
  sections config = pre ++ section :: post →
  (∀ q, q ∈ pre → ∃ d, section_dict config q = Ok d) →
  section_dict config section = Raise e →
  from_ini fs ini_parse section_dict self path silent = Raise e.
Proof.
  intros Hopen Hparse Hsections Hpre He. rewrite from_ini_merges.
  unfold ConfigParser_read. rewrite Hopen, Hparse, result_bind_Ok.
  unfold ini_mapping. rewrite Hsections.
  by rewrite (ini_items_error config pre section post e Hpre He).
Qed.

(** X17: [silent] only covers a missing file: [from_file] with
    [silent] is a no-op on a missing path and otherwise the merge without
    [silent]; for [from_ini] the flag changes nothing; [from_dotenv]
    with [silent] is a no-op only for a given filename that is missing. *)
Theorem silent_only_covers_missing_files self path :
  (∀ load, from_file fs self path load true
           = if exists_ fs path then from_file fs self path load false
             else Ok self) ∧
  from_ini fs ini_parse section_dict self path true
  = from_ini fs ini_parse section_dict self path false ∧
  (∀ filename,
     from_dotenv fs dotenv_values self filename true
     = match str_or_none filename with
       | Some f => if exists_ fs f
                   then from_dotenv fs dotenv_values self filename false
                   else Ok self
       | None => from_dotenv fs dotenv_values self filename false
       end).
Proof.
  split; [|split].
  - intros load. unfold from_file. by destruct (exists_ fs path).
  - by rewrite !from_ini_merges.
  - intros filename. unfold from_dotenv.
    destruct (str_or_none filename) as [f|]; [|done].
    by destruct (exists_ fs f).
Qed.

End Merging.

Lemma merge_twice_witness :
  from_json Sample.fs Sample.load Sample.old_settings "/etc/app/settings.json" false
  = Ok {[ "K" := VStr "etc"; "port" := VInt 80; "debug" := VBool false ]} ∧
  from_json Sample.fs Sample.load
    {[ "K" := VStr "etc"; "port" := VInt 80; "debug" := VBool false ]}
    "/etc/app/settings.json" false
  = Ok {[ "K" := VStr "etc"; "port" := VInt 80; "debug" := VBool false ]}.
Proof.
  split; [reflexivity|].
  apply (proj1 (proj2 (merge_twice Sample.fs Sample.load Sample.load Sample.load
           Sample.ini_parse Sample.section_dict Sample.dotenv_values Sample.old_settings
           "/etc/app/settings.json" false _))).
  reflexivity.
Defined.

Lemma parse_error_not_silenced_witness :
  open Demo.fs "/srv/settings.json" = Ok "{oops" ∧
  Sample.load "{oops" = Raise (ParserError "{oops") ∧
  from_file Demo.fs Sample.old_settings "/srv/settings.json" Sample.load true
  = Raise (ParserError "{oops").
Proof.
  split; [reflexivity|]. split; [reflexivity|].
  apply (proj1 (parse_error_not_silenced Demo.fs Sample.ini_parse Sample.section_dict
                  Demo.dotenv_values Sample.old_settings
                  "/srv/settings.json" "{oops" (ParserError "{oops") true
                  eq_refl) Sample.load).
  reflexivity.
Defined.

Lemma merge_from_directory_witness :
  Demo.fs "/mnt/settings.json" = Some Directory ∧
  from_json Demo.fs Sample.load Sample.old_settings "/mnt/settings.json" true
  = Raise (IsADirectoryError "/mnt/settings.json") ∧
  from_ini Demo.fs Sample.ini_parse Sample.section_dict Sample.old_settings "/mnt/settings.json"
    true = Ok Sample.old_settings.
Proof.
  split; [reflexivity|].
  exact (proj2 (merge_from_directory Demo.fs Sample.load Sample.ini_parse Sample.section_dict
                  Sample.old_settings "/mnt/settings.json" true eq_refl)).
Defined.

Lemma from_ini_section_value_witness :
  open Sample.fs "/etc/app/settings.ini" = Ok "[server] host=localhost" ∧
  "server" ∈ sections {| _sections := [("server", {[ "host" := "localhost" ]})];
                         _defaults := ∅ |} ∧
  from_ini Sample.fs Sample.ini_parse Sample.section_dict Sample.old_settings
    "/etc/app/settings.ini" false
  = Ok (<[ "server" := VDict {[ "host" := VStr "localhost" ]} ]>
          Sample.old_settings) ∧
  ∃ d, Sample.section_dict
         {| _sections := [("server", {[ "host" := "localhost" ]})];
            _defaults := ∅ |} "server" = Ok d ∧
       (<[ "server" := VDict {[ "host" := VStr "localhost" ]} ]>
          Sample.old_settings : dict) !! "server"
       = Some (VDict (VStr <$> d)).
Proof.
  assert ("server" ∈ sections
            {| _sections := [("server", {[ "host" := "localhost" ]})];
               _defaults := ∅ |}) as Hin by left.
  split; [reflexivity|]. split; [exact Hin|]. split; [reflexivity|].
  exact (from_ini_section_value Sample.fs Sample.ini_parse
           Sample.section_dict Sample.old_settings "/etc/app/settings.ini"
           "[server] host=localhost"
           {| _sections := [("server", {[ "host" := "localhost" ]})];
              _defaults := ∅ |}
           "server" false
           (<[ "server" := VDict {[ "host" := VStr "localhost" ]} ]>
              Sample.old_settings)
           eq_refl eq_refl Hin eq_refl).
Defined.

Lemma demo_server_dict q :
  q ∈ ["server"] →
  ∃ d, Demo.section_dict Demo.limits_config q = Ok d.
Proof. intros ->%list_elem_of_singleton. by eexists. Qed.

Lemma from_ini_section_error_witness :
  open Demo.ini_fs "/srv/limits.ini"
  = Ok "[server] host=localhost [limits] rate=100%" ∧
  sections Demo.limits_config = ["server"] ++ "limits" :: [] ∧
  Demo.section_dict Demo.limits_config "limits"
  = Raise (ParserError "InterpolationSyntaxError") ∧
  from_ini Demo.ini_fs Demo.ini_parse Demo.section_dict Sample.old_settings
    "/srv/limits.ini" true
  = Raise (ParserError "InterpolationSyntaxError").
Proof.
  split; [reflexivity|]. split; [reflexivity|]. split; [reflexivity|].
  exact (from_ini_section_error Demo.ini_fs Demo.ini_parse Demo.section_dict
           Sample.old_settings "/srv/limits.ini"
           "[server] host=localhost [limits] rate=100%"
           Demo.limits_config ["server"] "limits" []
           (ParserError "InterpolationSyntaxError") true
           eq_refl eq_refl eq_refl demo_server_dict eq_refl).
Defined.
